(** * The posts resource of the Stikeve dev blog

    A shallow embedding of [server/models/Post.js] (the Mongoose schema and
    its [pre('save')] hook) and of [server/routes/posts.js] (the eight Express
    handlers of the posts router), followed by the properties of the posts
    resource.

    Modelling conventions.
    - A JavaScript string is a [string]: a sequence of code units below 256.
    - An ObjectId is an [N]; comparing two ids through [toString()] is
      equality of ids.  A path parameter that a handler only hands to the
      store is the id it denotes; the one that a handler compares as text,
      [req.params.userId], is the [string] of the request.
    - The collection is a finite map from [_id] to document.  Requests are
      handled one after the other: a handler is a function from the store to
      a response and the next store.
    - [Date.now()], the ObjectId drawn by [new Post] and the order in which
      the store returns the documents that a sort leaves tied are inputs of
      the handler ([Env]).  The [slugify] package and the store's text search
      are not part of the repository; handlers take them as parameters.
    - [populate], [updatedAt] and the console log are left out. *)

From Stdlib Require Import NArith DecimalString Ascii String.
From Stdlib Require HexadecimalString HexadecimalN.
From stdpp Require Import gmap strings list fin_maps sorting.

Local Open Scope string_scope.
Local Open Scope nat_scope.

(** ** JavaScript string primitives *)

Module JS.

Definition char_code (c : ascii) : N := N_of_ascii c.

(** The characters matched by [\s], which are also the ones [trim()]
    strips: TAB, LF, VT, FF, CR, SP and NBSP. *)
Definition is_space (c : ascii) : bool :=
  let n := char_code c in
  ((9 <=? n) && (n <=? 13) || (n =? 32) || (n =? 160))%N.

Definition toLowerCase_char (c : ascii) : ascii :=
  let n := char_code c in
  if ((65 <=? n) && (n <=? 90)
      || (192 <=? n) && (n <=? 222) && negb (n =? 215))%N
  then ascii_of_N (n + 32) else c.

Fixpoint map_chars (f : ascii → ascii) (s : string) : string :=
  match s with
  | "" => ""
  | String c r => String (f c) (map_chars f r)
  end.

Definition toLowerCase : string → string := map_chars toLowerCase_char.

(** [s.replace(/[...]/g, '')] for a character class [bad]. *)
Fixpoint remove_chars (bad : ascii → bool) (s : string) : string :=
  match s with
  | "" => ""
  | String c r =>
      if bad c then remove_chars bad r else String c (remove_chars bad r)
  end.

Definition starts_with (p : ascii → bool) (s : string) : bool :=
  match s with
  | "" => false
  | String c _ => p c
  end.

(** [s.replace(/p+/g, rep)]: each maximal run of [p] characters becomes
    [rep]; it is emitted at the last character of the run. *)
Fixpoint replace_runs (p : ascii → bool) (rep : string) (s : string) : string :=
  match s with
  | "" => ""
  | String c r =>
      if p c then
        if starts_with p r then replace_runs p rep r
        else rep +:+ replace_runs p rep r
      else String c (replace_runs p rep r)
  end.

(** [s.split(/p+/)]: the pieces between the maximal runs of [p] characters.
    A string that starts (ends) with a run has an empty first (last) piece,
    and the empty string splits into one empty piece. *)
Fixpoint split_runs (p : ascii → bool) (s : string) : list string :=
  match s with
  | "" => [""]
  | String c r =>
      if p c then
        if starts_with p r then split_runs p r else "" :: split_runs p r
      else
        match split_runs p r with
        | [] => [String c ""]
        | piece :: pieces => String c piece :: pieces
        end
  end.

Fixpoint trimStart (s : string) : string :=
  match s with
  | "" => ""
  | String c r => if is_space c then trimStart r else s
  end.

Fixpoint trimEnd (s : string) : string :=
  match s with
  | "" => ""
  | String c r =>
      match trimEnd r with
      | "" => if is_space c then "" else String c ""
      | r' => String c r'
      end
  end.

Definition trim (s : string) : string := trimEnd (trimStart s).

(** [s.split(',')] *)
Definition is_comma (c : ascii) : bool := (char_code c =? 44)%N.

Fixpoint split_comma (s : string) : list string :=
  match s with
  | "" => [""]
  | String c r =>
      if is_comma c then "" :: split_comma r
      else
        match split_comma r with
        | [] => [String c ""]
        | piece :: pieces => String c piece :: pieces
        end
  end.

(** The decimal text of a number, as string concatenation produces it. *)
Definition string_of_N (n : N) : string :=
  NilZero.string_of_uint (N.to_uint n).

(** [Math.ceil(n / d)] on natural numbers. *)
Definition ceil_div (n d : nat) : nat := (n + (d - 1)) / d.

(** An absent or empty string is falsy. *)
Definition falsy (o : option string) : bool :=
  match o with
  | None | Some "" => true
  | Some _ => false
  end.

End JS.

(** Every character of the string passes the test. *)
Fixpoint all_chars (test : ascii → bool) (s : string) : bool :=
  match s with
  | "" => true
  | String c r => test c && all_chars test r
  end.

(** ** ObjectIds and their text *)

Module ObjectId.

(** [0-9a-fA-F] *)
Definition is_hex (c : ascii) : bool :=
  let n := JS.char_code c in
  ((48 <=? n) && (n <=? 57) || (97 <=? n) && (n <=? 102)
   || (65 <=? n) && (n <=? 70))%N.

Fixpoint zeros (k : nat) : string :=
  match k with
  | O => ""
  | S k' => String "0" (zeros k')
  end.

(** [id.toString()]: the 24 hexadecimal digits of the id, in lower case.
    An ObjectId has 12 bytes, so its number is below [16 ^ 24]; a larger
    number, which no id is, would get more digits and be the text of no
    id. *)
Definition toString (n : N) : string :=
  let digits := HexadecimalString.NilEmpty.string_of_uint (N.to_hex_uint n) in
  zeros (24 - String.length digits) +:+ digits.

(** The cast of a string to an ObjectId, which the store applies to the
    value of an id field in a filter: 24 hexadecimal digits in either case
    denote an id, and every other string of 24 characters throws. *)
Definition cast (s : string) : option N :=
  if (String.length s =? 24)%nat && all_chars is_hex s
  then N.of_hex_uint
         <$> HexadecimalString.NilEmpty.uint_of_string (JS.toLowerCase s)
  else None.

End ObjectId.

(** ** The Post model ([server/models/Post.js]) *)

Record Post := mkPost {
  title : string;
  content : string;
  excerpt : option string;
  slug : string;
  tags : list string;
  privacy : string;
  author : N;
  featured : bool;
  coverImage : string;
  readTime : nat;
  views : N;
  likes : list N;
  status : string;
  createdAt : N
}.

Definition set_slug (v : string) (p : Post) : Post :=
  mkPost (title p) (content p) (excerpt p) v (tags p) (privacy p) (author p)
    (featured p) (coverImage p) (readTime p) (views p) (likes p) (status p)
    (createdAt p).

Definition set_readTime (v : nat) (p : Post) : Post :=
  mkPost (title p) (content p) (excerpt p) (slug p) (tags p) (privacy p)
    (author p) (featured p) (coverImage p) v (views p) (likes p) (status p)
    (createdAt p).

Definition set_excerpt (v : option string) (p : Post) : Post :=
  mkPost (title p) (content p) v (slug p) (tags p) (privacy p) (author p)
    (featured p) (coverImage p) (readTime p) (views p) (likes p) (status p)
    (createdAt p).

Definition set_views (v : N) (p : Post) : Post :=
  mkPost (title p) (content p) (excerpt p) (slug p) (tags p) (privacy p)
    (author p) (featured p) (coverImage p) (readTime p) v (likes p) (status p)
    (createdAt p).

Definition set_likes (v : list N) (p : Post) : Post :=
  mkPost (title p) (content p) (excerpt p) (slug p) (tags p) (privacy p)
    (author p) (featured p) (coverImage p) (readTime p) (views p) v (status p)
    (createdAt p).

Definition set_content (v : string) (p : Post) : Post :=
  mkPost (title p) v (excerpt p) (slug p) (tags p) (privacy p) (author p)
    (featured p) (coverImage p) (readTime p) (views p) (likes p) (status p)
    (createdAt p).

Definition tag_enum : list string := ["technical"; "personal"].
Definition privacy_enum : list string := ["public"; "private"].
Definition status_enum : list string := ["draft"; "published"].

Definition in_enum (enum : list string) (s : string) : bool :=
  bool_decide (s ∈ enum).

(** The validators declared in the schema.  [required] on a string rejects
    the empty string. *)
Definition schema_valid (p : Post) : bool :=
  negb (String.eqb (title p) "") && (String.length (title p) <=? 200)%nat
  && negb (String.eqb (content p) "")
  && match excerpt p with
     | Some e => (String.length e <=? 300)%nat
     | None => true
     end
  && negb (String.eqb (slug p) "")
  && forallb (in_enum tag_enum) (tags p)
  && (0 <? length (tags p))%nat && (length (tags p) <=? 2)%nat
  && in_enum privacy_enum (privacy p)
  && in_enum status_enum (status p).

(** What the hook keeps of a lower-cased title: [a-z], [0-9], space, [-]. *)
Definition slug_char (c : ascii) : bool :=
  let n := JS.char_code c in
  ((97 <=? n) && (n <=? 122) || (48 <=? n) && (n <=? 57)
   || (n =? 32) || (n =? 45))%N.

Definition is_hyphen (c : ascii) : bool := (JS.char_code c =? 45)%N.

(** The characters [#], [*] and the backquote. *)
Definition is_markup (c : ascii) : bool :=
  let n := JS.char_code c in ((n =? 35) || (n =? 42) || (n =? 96))%N.

(** The slug the hook computes from the title.  [trim] takes no argument in
    JavaScript, so [.trim('-')] strips white space. *)
Definition title_slug (t : string) : string :=
  JS.trim
    (JS.replace_runs is_hyphen "-"
       (JS.replace_runs JS.is_space "-"
          (JS.remove_chars (λ c, negb (slug_char c)) (JS.toLowerCase t)))).

Definition wordCount (c : string) : nat := length (JS.split_runs JS.is_space c).

Definition derive_readTime (c : string) : nat := JS.ceil_div (wordCount c) 200.

Definition derive_excerpt (c : string) : string :=
  JS.trim (substring 0 150 (JS.remove_chars is_markup c)) +:+ "...".

(** A document in memory: its fields and what Mongoose tracks about it. *)
Record Doc := mkDoc {
  doc : Post;
  isNew : bool;
  modifiedPaths : list string
}.

Definition isModified (d : Doc) (path : string) : bool :=
  bool_decide (path ∈ modifiedPaths d).

(** [postSchema.pre('save', ...)] *)
Definition pre_save (now : N) (d : Doc) : Post :=
  let this := doc d in
  let this :=
    if isModified d "title" then
      let s := title_slug (title this) in
      set_slug (if isNew d then s +:+ "-" +:+ JS.string_of_N now else s) this
    else this in
  if isModified d "content" then
    let this := set_readTime (derive_readTime (content this)) this in
    if JS.falsy (excerpt this)
    then set_excerpt (Some (derive_excerpt (content this))) this
    else this
  else this.

(** ** The collection *)

(** [Post.findOne({ slug })]: a document with that slug, the first one in
    the store's enumeration.  The schema declares [slug] unique. *)
Definition findOne_slug (st : gmap N Post) (s : string) : option (N * Post) :=
  head (filter (λ kp : N * Post, slug kp.2 = s) (map_to_list st)).

(** [doc.save()]: schema validation, then the hook, then the write.  A
    failed validation and a duplicate key on insert ([_id] and [slug] are
    unique) throw, which is [None] here. *)
Definition save (now : N) (st : gmap N Post) (id : N) (d : Doc)
  : option (gmap N Post * Post) :=
  if schema_valid (doc d) then
    let p := pre_save now d in
    if isNew d then
      if bool_decide (is_Some (st !! id))
         || bool_decide (is_Some (findOne_slug st (slug p)))
      then None
      else Some (<[id := p]> st, p)
    else Some (<[id := p]> st, p)
  else None.

(** A query filter, as the handlers build it. *)
Record Filter := mkFilter {
  filter_status : option string;
  filter_author : option N;
  filter_privacy : option string;
  filter_or : option (list (string * option N));
  filter_tags_in : option (list string);
  filter_text : option string
}.

Definition opt_test {A} (o : option A) (test : A → bool) : bool :=
  match o with
  | None => true
  | Some a => test a
  end.

(** One alternative of [$or]: a privacy and possibly an author. *)
Definition clause_matches (p : Post) (c : string * option N) : bool :=
  String.eqb (privacy p) c.1 && opt_test c.2 (N.eqb (author p)).

(** Whether a document passes a filter.  [$text] is answered by the store:
    [text_search s] is the set of documents the term [s] matches, or [None]
    when the store refuses the query, as it does on a collection without a
    text index. *)
Definition matches (text_search : string → option (Post → bool)) (f : Filter)
  (p : Post) : bool :=
  opt_test (filter_status f) (String.eqb (status p))
  && opt_test (filter_author f) (N.eqb (author p))
  && opt_test (filter_privacy f) (String.eqb (privacy p))
  && opt_test (filter_or f) (existsb (clause_matches p))
  && opt_test (filter_tags_in f)
       (λ wanted, existsb (λ t, bool_decide (t ∈ wanted)) (tags p))
  && opt_test (filter_text f)
       (λ s, from_option (λ found, found p) false (text_search s)).

(** The filter has a [$text] that the store refuses. *)
Definition refused (text_search : string → option (Post → bool)) (f : Filter)
  : bool :=
  match filter_text f with
  | Some s => match text_search s with Some _ => false | None => true end
  | None => false
  end.

(** [Post.find(filter)]; a refused query throws, which is [None] here. *)
Definition find (text_search : string → option (Post → bool)) (f : Filter)
  (st : gmap N Post) : option (list (N * Post)) :=
  if refused text_search f then None
  else
    Some (filter (λ kp : N * Post, matches text_search f kp.2 = true)
            (map_to_list st)).

(** [x] comes before [y] in a list sorted by [createdAt], newest first.
    The sort key leaves documents of the same time tied, and the store
    promises no order among them: [natural] is the place each document has
    in the order the store happens to use for one query. *)
Definition comes_first (natural : N → N) (x y : N * Post) : bool :=
  (createdAt y.2 <? createdAt x.2)%N
  || (createdAt y.2 =? createdAt x.2)%N && (natural x.1 <? natural y.1)%N.

Fixpoint insert_desc (natural : N → N) (x : N * Post) (l : list (N * Post))
  : list (N * Post) :=
  match l with
  | [] => [x]
  | y :: l' =>
      if comes_first natural x y then x :: l
      else y :: insert_desc natural x l'
  end.

(** [.sort({ createdAt: -1 })] *)
Definition sort_createdAt_desc (natural : N → N) (l : list (N * Post))
  : list (N * Post) :=
  foldr (insert_desc natural) [] l.

(** [.select('-content')]: the content is not sent; it is blank here. *)
Definition select_no_content (l : list (N * Post)) : list (N * Post) :=
  (λ kp : N * Post, (kp.1, set_content "" kp.2)) <$> l.

(** ** Requests and responses *)

Record User := mkUser {
  user_id : N;
  role : string
}.

Record Body := mkBody {
  body_title : option string;
  body_content : option string;
  body_tags : option (list string);
  body_privacy : option string;
  body_excerpt : option string;
  body_coverImage : option string;
  body_featured : option bool;
  body_status : option string
}.

(** The query string of the list route.  [page] and [limit] are the integers
    their text denotes. *)
Record Query := mkQuery {
  query_tags : option string;
  query_page : option Z;
  query_limit : option Z;
  query_search : option string
}.

Record Pagination := mkPagination {
  page : nat;
  limit : nat;
  total : nat;
  pages : nat;
  hasNext : bool;
  hasPrev : bool
}.

Inductive Payload :=
  | Message (message : string)
  | ValidationFailed (errors : list string)
  | OnePost (message : option string) (id : N) (post : Post)
  | Posts (posts : list (N * Post)) (pagination : option Pagination)
  | LikeResult (message : string) (liked : bool) (likesCount : nat).

Record Response := mkResponse {
  res_status : N;
  res_json : Payload
}.

Definition validation_failed (errors : list string) : Response :=
  mkResponse 400 (ValidationFailed errors).
Definition not_found : Response := mkResponse 404 (Message "Post not found").
Definition server_error : Response := mkResponse 500 (Message "Server error").
Definition access_denied (m : string) : Response := mkResponse 403 (Message m).
Definition slug_exists : Response :=
  mkResponse 400 (Message "Slug already exists, please change the title").

(** What the clock, the ObjectId generator and the store give one request:
    the time, a new id, and the order among the documents that a sort
    leaves tied. *)
Record Env := mkEnv {
  now : N;
  oid : N;
  natural : N → N
}.

Inductive Request :=
  | GetPosts (user : option User) (q : Query)
  | GetPostById (user : User) (id : N)
  | GetPostBySlug (user : option User) (s : string)
  | CreatePost (user : User) (b : Body)
  | UpdatePost (user : User) (id : N) (b : Body)
  | DeletePost (user : User) (id : N)
  | GetUserPosts (user : option User) (userId : string)
  | ToggleLike (user : User) (id : N).

(** ** Validation chains of the routes *)

Definition check (ok : bool) (msg : string) : list string :=
  if ok then [] else [msg].

Definition list_tags_allowed : list string :=
  ["technical"; "personal"; "technical,personal"].

(** [query('tags').optional().isIn([...])], [page] and [limit]. *)
Definition validate_list (q : Query) : list string :=
  match query_tags q with
  | None => []
  | Some t =>
      check (in_enum list_tags_allowed t)
        "Tags must be technical, personal, or both"
  end
  ++ match query_page q with
     | None => []
     | Some n => check (1 <=? n)%Z "Page must be a positive integer"
     end
  ++ match query_limit q with
     | None => []
     | Some n =>
         check ((1 <=? n)%Z && (n <=? 50)%Z) "Limit must be between 1 and 50"
     end.

(** The [trim()] sanitizer of the title chains rewrites the body. *)
Definition sanitize (b : Body) : Body :=
  mkBody (JS.trim <$> body_title b) (body_content b) (body_tags b)
    (body_privacy b) (body_excerpt b) (body_coverImage b) (body_featured b)
    (body_status b).

Definition tags_length_ok (ts : list string) : bool :=
  (1 <=? length ts)%nat && (length ts <=? 2)%nat.

Definition tags_errors (ts : list string) : list string :=
  flat_map (λ t, check (in_enum tag_enum t) "Tags must be technical or personal")
    ts.

(** The chain of [router.post('/')], on a sanitized body.  A validator
    without [withMessage] reports "Invalid value"; an absent field is
    validated as the empty string. *)
Definition validate_create (b : Body) : list string :=
  let t := default "" (body_title b) in
  check (negb (String.eqb t "")) "Invalid value"
  ++ check (String.length t <=? 200)%nat
       "Title is required and must be less than 200 characters"
  ++ check (negb (String.eqb (default "" (body_content b)) ""))
       "Content is required"
  ++ check (from_option tags_length_ok false (body_tags b)) "Must have 1-2 tags"
  ++ tags_errors (default [] (body_tags b))
  ++ check (in_enum privacy_enum (default "" (body_privacy b)))
       "Privacy must be public or private"
  ++ match body_excerpt b with
     | None => []
     | Some e =>
         check (String.length e <=? 300)%nat
           "Excerpt must be less than 300 characters"
     end.

(** The chain of [router.put('/:id')]: every field is optional. *)
Definition validate_update (b : Body) : list string :=
  match body_title b with
  | None => []
  | Some t =>
      check ((1 <=? String.length t)%nat && (String.length t <=? 200)%nat)
        "Title must be 1-200 characters"
  end
  ++ match body_content b with
     | None => []
     | Some c => check (negb (String.eqb c "")) "Content cannot be empty"
     end
  ++ match body_tags b with
     | None => []
     | Some ts => check (tags_length_ok ts) "Must have 1-2 tags" ++ tags_errors ts
     end
  ++ match body_privacy b with
     | None => []
     | Some v =>
         check (in_enum privacy_enum v) "Privacy must be public or private"
     end.

(** [isHexadecimal] of the validator package, [/^(0x|0h)?[0-9A-F]+$/i], and
    its [isMongoId]: hexadecimal and 24 characters long. *)
Definition isHexadecimal (s : string) : bool :=
  let digits :=
    match s with
    | String "0" (String ("x" | "X" | "h" | "H") r) => r
    | _ => s
    end%char in
  negb (String.eqb digits "") && all_chars ObjectId.is_hex digits.

Definition isMongoId (s : string) : bool :=
  isHexadecimal s && (String.length s =? 24)%nat.

(** The chain of [router.get('/user/:userId')]. *)
Definition validate_user_posts (userId : string) : list string :=
  check (isMongoId userId) "Invalid user ID".

(** ** The handlers of [server/routes/posts.js] *)

Section Routes.

(** [slugify(title, { lower: true, strict: true })] and the store's
    [$text] search, both outside the repository. *)
Variable slugify : string → string.
Variable text_search : string → option (Post → bool).

Definition same_user (a b : N) : bool := N.eqb a b.

(** [!req.user || req.user._id.toString() !== post.author._id.toString()] *)
Definition not_author (user : option User) (p : Post) : bool :=
  match user with
  | None => true
  | Some u => negb (same_user (user_id u) (author p))
  end.

Definition truthy_string (o : option string) : option string :=
  match o with
  | Some "" | None => None
  | Some s => Some s
  end.

(** The filter of [router.get('/')]. *)
Definition list_filter (user : option User) (q : Query) : Filter :=
  mkFilter (Some "published") None
    (match user with None => Some "public" | Some _ => None end)
    (match user with
     | None => None
     | Some u => Some [("public", None); ("private", Some (user_id u))]
     end)
    (JS.split_comma <$> truthy_string (query_tags q))
    (truthy_string (query_search q)).

(** [parseInt(text) || fallback] *)
Definition int_or (o : option Z) (fallback : nat) : nat :=
  match o with
  | None => fallback
  | Some n => if (n =? 0)%Z then fallback else Z.to_nat n
  end.

(** [router.get('/')] *)
Definition get_posts (env : Env) (st : gmap N Post) (user : option User)
  (q : Query) : Response :=
  match validate_list q with
  | (_ :: _) as errors => validation_failed errors
  | [] =>
      let page := int_or (query_page q) 1 in
      let limit := int_or (query_limit q) 10 in
      let skip := ((page - 1) * limit)%nat in
      match find text_search (list_filter user q) st with
      | None => server_error
      | Some found =>
          let posts :=
            select_no_content
              (take limit
                 (drop skip (sort_createdAt_desc (natural env) found))) in
          let total := length found in
          mkResponse 200
            (Posts posts
               (Some (mkPagination page limit total (JS.ceil_div total limit)
                        (page * limit <? total)%nat (1 <? page)%nat)))
      end
  end.

(** [router.get('/id/:id')] *)
Definition get_post_by_id (st : gmap N Post) (user : User) (id : N) : Response :=
  match st !! id with
  | None => not_found
  | Some post =>
      if negb (same_user (author post) (user_id user))
      then access_denied "Access denied - not the author"
      else mkResponse 200 (OnePost None id post)
  end.

(** [router.get('/:slug')] *)
Definition get_post_by_slug (st : gmap N Post) (user : option User) (s : string)
  : Response * gmap N Post :=
  if String.eqb s "" then (validation_failed ["Slug is required"], st)
  else
    match findOne_slug st s with
    | None => (not_found, st)
    | Some (id, post) =>
        if String.eqb (privacy post) "private" && not_author user post
        then (access_denied "Access denied to private post", st)
        else if String.eqb (privacy post) "public" && not_author user post
        then
          (mkResponse 200 (OnePost None id (set_views (views post + 1) post)),
           alter (λ p, set_views (views p + 1) p) id st)
        else (mkResponse 200 (OnePost None id post), st)
    end.

(** [new Post({ title, slug, content, tags, privacy, excerpt, coverImage,
    featured, author })] with the schema defaults; [title] has [trim: true]. *)
Definition new_Post (env : Env) (user : User) (b : Body) (s : string) : Doc :=
  mkDoc
    (mkPost (JS.trim (default "" (body_title b)))
       (default "" (body_content b))
       (body_excerpt b)
       s
       (default [] (body_tags b))
       (default "public" (body_privacy b))
       (user_id user)
       (match body_featured b with
        | Some true => String.eqb (role user) "admin"
        | _ => false
        end)
       (default "" (body_coverImage b))
       0 0 [] "published" (now env))
    true
    ["title"; "slug"; "content"; "tags"; "privacy"; "excerpt"; "coverImage";
     "featured"; "author"].

(** [router.post('/')] *)
Definition create_post (env : Env) (st : gmap N Post) (user : User) (b : Body)
  : Response * gmap N Post :=
  let b := sanitize b in
  match validate_create b with
  | (_ :: _) as errors => (validation_failed errors, st)
  | [] =>
      let s := slugify (default "" (body_title b)) in
      match findOne_slug st s with
      | Some _ => (slug_exists, st)
      | None =>
          match save (now env) st (oid env) (new_Post env user b s) with
          | None => (server_error, st)
          | Some (st', post) =>
              (mkResponse 201
                 (OnePost (Some "Post created successfully") (oid env) post),
               st')
          end
      end
  end.

(** The fields of the body that the update copies: the allowed ones that
    are present, and [featured] for an admin. *)
Definition updateFields (user : User) (b : Body) : Body :=
  mkBody (body_title b) (body_content b) (body_tags b) (body_privacy b)
    (body_excerpt b) (body_coverImage b)
    (if String.eqb (role user) "admin" then body_featured b else None)
    (body_status b).

(** The schema validators that [runValidators: true] runs on the fields of
    an update. *)
Definition update_valid (u : Body) : bool :=
  opt_test (body_title u)
    (λ t, negb (String.eqb (JS.trim t) "")
          && (String.length (JS.trim t) <=? 200)%nat)
  && opt_test (body_content u) (λ c, negb (String.eqb c ""))
  && opt_test (body_tags u)
       (λ ts, forallb (in_enum tag_enum) ts && (0 <? length ts)%nat
              && (length ts <=? 2)%nat)
  && opt_test (body_privacy u) (in_enum privacy_enum)
  && opt_test (body_excerpt u) (λ e, (String.length e <=? 300)%nat)
  && opt_test (body_status u) (in_enum status_enum).

Definition apply_update (u : Body) (p : Post) : Post :=
  mkPost (default (title p) (JS.trim <$> body_title u))
    (default (content p) (body_content u))
    (match body_excerpt u with Some e => Some e | None => excerpt p end)
    (slug p)
    (default (tags p) (body_tags u))
    (default (privacy p) (body_privacy u))
    (author p)
    (default (featured p) (body_featured u))
    (default (coverImage p) (body_coverImage u))
    (readTime p) (views p) (likes p)
    (default (status p) (body_status u))
    (createdAt p).

(** [Post.findByIdAndUpdate(id, fields, { new: true, runValidators: true })]:
    a query, which does not run the [save] hook. *)
Definition findByIdAndUpdate (st : gmap N Post) (id : N) (u : Body)
  : option (gmap N Post * option Post) :=
  if update_valid u then
    Some (alter (apply_update u) id st, apply_update u <$> st !! id)
  else None.

(** [router.put('/:id')] *)
Definition update_post (st : gmap N Post) (user : User) (id : N) (b : Body)
  : Response * gmap N Post :=
  let b := sanitize b in
  match validate_update b with
  | (_ :: _) as errors => (validation_failed errors, st)
  | [] =>
      match st !! id with
      | None => (not_found, st)
      | Some post =>
          if negb (same_user (author post) (user_id user))
          then (access_denied "Access denied", st)
          else
            match findByIdAndUpdate st id (updateFields user b) with
            | Some (st', Some updated) =>
                (mkResponse 200
                   (OnePost (Some "Post updated successfully") id updated),
                 st')
            | _ => (server_error, st)
            end
      end
  end.

(** [router.delete('/:id')] *)
Definition delete_post (st : gmap N Post) (user : User) (id : N)
  : Response * gmap N Post :=
  match st !! id with
  | None => (not_found, st)
  | Some post =>
      if negb (same_user (author post) (user_id user))
         && negb (String.eqb (role user) "admin")
      then (access_denied "Access denied", st)
      else (mkResponse 200 (Message "Post deleted successfully"), delete id st)
  end.

(** The filter of [router.get('/user/:userId')]: [author] is the path
    parameter, which the store casts to the id [a], and the caller's own
    private posts are asked for when [req.user._id.toString()] is that
    parameter, character by character. *)
Definition user_filter (user : option User) (userId : string) (a : N)
  : Filter :=
  mkFilter (Some "published") (Some a)
    (match user with
     | Some u =>
         if String.eqb (ObjectId.toString (user_id u)) userId then None
         else Some "public"
     | None => Some "public"
     end)
    None None None.

(** [router.get('/user/:userId')]; a parameter that passes the chain and
    that the store cannot cast makes the query throw. *)
Definition get_user_posts (env : Env) (st : gmap N Post) (user : option User)
  (userId : string) : Response :=
  match validate_user_posts userId with
  | (_ :: _) as errors => validation_failed errors
  | [] =>
      match ObjectId.cast userId with
      | None => server_error
      | Some a =>
          match find text_search (user_filter user userId a) st with
          | None => server_error
          | Some found =>
              mkResponse 200
                (Posts
                   (select_no_content
                      (sort_createdAt_desc (natural env) found))
                   None)
          end
      end
  end.

(** The new [likes] array of the toggle: every entry of the caller is
    filtered out when the caller is included, else one is pushed.  [likes]
    is a Mongoose array, whose [includes] compares ObjectIds by value. *)
Definition toggled_likes (userId : N) (l : list N) : list N :=
  if bool_decide (userId ∈ l) then filter (λ i, i ≠ userId) l
  else l ++ [userId].

(** [router.post('/:id/like')] *)
Definition toggle_like (env : Env) (st : gmap N Post) (user : User) (id : N)
  : Response * gmap N Post :=
  match st !! id with
  | None => (not_found, st)
  | Some post =>
      if String.eqb (privacy post) "private"
         && negb (same_user (author post) (user_id user))
      then (access_denied "Access denied", st)
      else
        let userId := user_id user in
        let isLiked := bool_decide (userId ∈ likes post) in
        let d :=
          mkDoc (set_likes (toggled_likes userId (likes post)) post) false
            ["likes"] in
        match save (now env) st id d with
        | None => (server_error, st)
        | Some (st', post') =>
            (mkResponse 200
               (LikeResult (if isLiked then "Post unliked" else "Post liked")
                  (negb isLiked) (length (likes post'))),
             st')
        end
  end.

(** The router: one request against the store. *)
Definition handle (env : Env) (st : gmap N Post) (r : Request)
  : Response * gmap N Post :=
  match r with
  | GetPosts user q => (get_posts env st user q, st)
  | GetPostById user id => (get_post_by_id st user id, st)
  | GetPostBySlug user s => get_post_by_slug st user s
  | CreatePost user b => create_post env st user b
  | UpdatePost user id b => update_post st user id b
  | DeletePost user id => delete_post st user id
  | GetUserPosts user userId => (get_user_posts env st user userId, st)
  | ToggleLike user id => toggle_like env st user id
  end.

End Routes.

(** ** The pages of the client that call the router *)

(** [handleTagChange] of [client/src/pages/CreatePost.tsx]: a click on the
    check box of a tag takes the tag out of the form when it is there, and
    puts it at the end when it is not. *)
Definition handleTagChange (tag : string) (form_tags : list string)
  : list string :=
  if bool_decide (tag ∈ form_tags) then filter (λ t, t ≠ tag) form_tags
  else form_tags ++ [tag].

(** The check boxes of the form. *)
Definition tag_boxes : list string := ["technical"; "personal"].

(** The state of the create form. *)
Record Form := mkForm {
  form_title : string;
  form_content : string;
  form_excerpt : string;
  form_tags : list string;
  form_privacy : string;
  form_coverImage : string
}.

(** The checks of [handleSubmit] before it posts the form: a title and a
    content that are not blank, and a tag. *)
Definition handleSubmit_posts (f : Form) : bool :=
  negb (String.eqb (JS.trim (form_title f)) "")
  && negb (String.eqb (JS.trim (form_content f)) "")
  && negb (length (form_tags f) =? 0).

(** The body of [postsAPI.createPost(formData)]. *)
Definition form_body (f : Form) : Body :=
  mkBody (Some (form_title f)) (Some (form_content f)) (Some (form_tags f))
    (Some (form_privacy f)) (Some (form_excerpt f)) (Some (form_coverImage f))
    None None.

(** The [stats] of [client/src/pages/Dashboard.tsx] over the posts that
    the page holds. *)
Record Stats := mkStats {
  stats_total : nat;
  stats_published : nat;
  stats_drafts : nat;
  stats_totalViews : N;
  stats_totalLikes : nat
}.

Definition dashboard_stats (posts : list (N * Post)) : Stats :=
  mkStats (length posts)
    (length (filter (λ kp : N * Post, status kp.2 = "published") posts))
    (length (filter (λ kp : N * Post, status kp.2 = "draft") posts))
    (foldl (λ sum kp, (sum + views kp.2)%N) 0%N posts)
    (foldl (λ sum kp, sum + length (likes kp.2)) 0 posts).

(** ** Sample data *)

Module Sample.

(** What [slugify(t, { lower: true, strict: true })] returns for a title made
    of ASCII letters, digits and white space, where the package's character
    map has nothing to replace: the characters outside [A-Za-z0-9\s] go, the
    ends are trimmed, each run of white space becomes one hyphen, and the
    result is lower-cased. *)
Definition strict_char (c : ascii) : bool :=
  let n := JS.char_code c in
  ((65 <=? n) && (n <=? 90) || (97 <=? n) && (n <=? 122)
   || (48 <=? n) && (n <=? 57))%N
  || JS.is_space c.

Definition slugify (t : string) : string :=
  JS.toLowerCase
    (JS.replace_runs JS.is_space "-"
       (JS.trim (JS.remove_chars (λ c, negb (strict_char c)) t))).

(** The schema declares no text index: the store refuses every [$text]. *)
Definition text_search (_ : string) : option (Post → bool) := None.

Definition alice : User := mkUser 101 "user".
Definition bob : User := mkUser 102 "user".

Definition body (t c : string) (tag privacy : string) : Body :=
  mkBody (Some t) (Some c) (Some [tag]) (Some privacy) None None None None.

Definition hello : Body := body "Hello World" "First post" "technical" "public".

Definition no_body : Body := mkBody None None None None None None None None.

Definition first : Env := mkEnv 1700000000000 1 (λ i, i).
Definition second : Env := mkEnv 1700000000500 2 (λ i, i).
Definition third : Env := mkEnv 1700000001000 3 (λ i, i).

Definition create (env : Env) (st : gmap N Post) (u : User) (b : Body)
  : gmap N Post :=
  (create_post slugify env st u b).2.

(** The store after Alice posted [hello]. *)
Definition one_post : gmap N Post := create first ∅ alice hello.

(** The store after Alice posted [hello] and then a private note. *)
Definition two_posts : gmap N Post :=
  create second one_post alice
    (body "Private note" "Only for me" "personal" "private").

(** The two documents of [two_posts]. *)
Definition hello_post : Post :=
  mkPost "Hello World" "First post" (Some "First post...")
    "hello-world-1700000000000" ["technical"] "public" 101 false "" 1 0 []
    "published" 1700000000000.

Definition private_note : Post :=
  mkPost "Private note" "Only for me" (Some "Only for me...")
    "private-note-1700000000500" ["personal"] "private" 101 false "" 1 0 []
    "published" 1700000000500.

(** The store after Alice posted [hello] and Bob a public post of his own. *)
Definition two_public : gmap N Post :=
  create second one_post bob (body "Second" "More text" "personal" "public").

(** [one_post] after Bob liked Alice's post. *)
Definition liked_by_bob : gmap N Post :=
  (toggle_like third one_post bob 1).2.

(** A body that asks for a draft. *)
Definition draft_body : Body :=
  mkBody (Some "Work in progress") (Some "Not yet") (Some ["personal"])
    (Some "public") None None None (Some "draft").

Definition no_query : Query := mkQuery None None None None.

Fixpoint repeat_string (n : nat) (s : string) : string :=
  match n with
  | O => ""
  | S n' => s +:+ repeat_string n' s
  end.



(** The ids of Alice and Bob as path parameters. *)
Definition alice_id : string := "000000000000000000000065".
Definition bob_id : string := "000000000000000000000066".

(** Dana, whose id has letters in its text, and the store after she
    posted a private note. *)
Definition dana : User := mkUser 171 "user".

Definition dana_note : gmap N Post :=
  create first ∅ dana (body "Mine" "Not for you" "personal" "private").

(** The store after Alice and Bob posted in the same millisecond, and an
    order among tied documents that is the reverse of the one of
    [first]. *)
Definition same_time : gmap N Post :=
  create (mkEnv 1700000000000 2 (λ i, i)) one_post bob
    (body "Second" "More text" "personal" "public").

Definition reversed : Env := mkEnv 1700000002000 4 (λ i, 10 - i)%N.

(** An admin, the body of a featured post and the document it makes. *)
Definition carol : User := mkUser 103 "admin".

Definition pinned_body : Body :=
  mkBody (Some "Pinned") (Some "Read this") (Some ["technical"])
    (Some "public") None None (Some true) None.

Definition pinned_post : Post :=
  mkPost "Pinned" "Read this" (Some "Read this...") "pinned-1700000000000"
    ["technical"] "public" 103 true "" 1 0 [] "published" 1700000000000.

(** A body that carries a new title only, and [hello_post] after it. *)
Definition new_title : Body :=
  mkBody (Some "Hello again") None None None None None None None.

Definition retitled : Post :=
  mkPost "Hello again" "First post" (Some "First post...")
    "hello-world-1700000000000" ["technical"] "public" 101 false "" 1 0 []
    "published" 1700000000000.


(** A list query with one post per page. *)
Definition one_per_page : Query := mkQuery None None (Some 1%Z) None.

(** The create form after a title and a content were typed and the box
    of technical was clicked. *)
Definition hello_form : Form :=
  mkForm "Hello World" "First post" "" ["technical"] "public" "".

End Sample.

(** ** Vocabulary of the properties *)

(** The caller is the author of the post. *)
Definition is_author (user : option User) (p : Post) : Prop :=
  ∃ u, user = Some u ∧ user_id u = author p.

(** The two posts agree on every field but [views]. *)
Definition same_but_views (p p' : Post) : Prop :=
  title p' = title p ∧ content p' = content p ∧ excerpt p' = excerpt p
  ∧ slug p' = slug p ∧ tags p' = tags p ∧ privacy p' = privacy p
  ∧ author p' = author p ∧ featured p' = featured p
  ∧ coverImage p' = coverImage p ∧ readTime p' = readTime p
  ∧ likes p' = likes p ∧ status p' = status p
  ∧ createdAt p' = createdAt p.

(** How many entries of [l] are [u]. *)
Definition occurrences (u : N) (l : list N) : nat :=
  length (filter (λ i, i = u) l).

(** The caller may like the post: it is not private, or it is the caller's. *)
Definition may_like (user : User) (p : Post) : Prop :=
  privacy p ≠ "private" ∨ author p = user_id user.

(** The status of the body is not read. *)
Definition with_status (s : option string) (b : Body) : Body :=
  mkBody (body_title b) (body_content b) (body_tags b) (body_privacy b)
    (body_excerpt b) (body_coverImage b) (body_featured b) s.

(** What a request can do to the document stored under [id]: nothing, one
    more view, its creation, an update of its fields, its deletion, or a
    toggle of the caller in its [likes]. *)
Inductive effect (slugify : string → string) (env : Env) (st : gmap N Post)
  (r : Request) (id : N) : option Post → option Post → Prop :=
  | effect_none o : effect slugify env st r id o o
  | effect_view user s p :
      r = GetPostBySlug user s →
      effect slugify env st r id (Some p) (Some (set_views (views p + 1) p))
  | effect_create user b :
      r = CreatePost user b →
      id = oid env →
      validate_create (sanitize b) = [] →
      schema_valid
        (doc (new_Post env user (sanitize b)
                (slugify (default "" (body_title (sanitize b)))))) = true →
      (∀ j q, st !! j = Some q →
              slug q ≠ slug (pre_save (now env)
                              (new_Post env user (sanitize b)
                                 (slugify (default "" (body_title (sanitize b))))))) →
      effect slugify env st r id None
        (Some (pre_save (now env)
                 (new_Post env user (sanitize b)
                    (slugify (default "" (body_title (sanitize b)))))))
  | effect_update user b p :
      r = UpdatePost user id b →
      author p = user_id user →
      update_valid (updateFields user (sanitize b)) = true →
      effect slugify env st r id (Some p)
        (Some (apply_update (updateFields user (sanitize b)) p))
  | effect_delete user p :
      r = DeletePost user id →
      effect slugify env st r id (Some p) None
  | effect_like user p :
      r = ToggleLike user id →
      schema_valid p = true →
      effect slugify env st r id (Some p)
        (Some (set_likes (toggled_likes (user_id user) (likes p)) p)).

(** The word count of a text as the specification means it: the number of
    its words, the maximal runs of characters that are not white space.
    [wordCount] above is what the hook computes. *)
Fixpoint word_count (s : string) : nat :=
  match s with
  | "" => 0
  | String c r =>
      if JS.is_space c then word_count r
      else if JS.starts_with (λ d, negb (JS.is_space d)) r then word_count r
      else S (word_count r)
  end.

(** The last character of the text is white space. *)
Fixpoint ends_with_space (s : string) : bool :=
  match s with
  | "" => false
  | String c "" => JS.is_space c
  | String _ r => ends_with_space r
  end.

(** The ids of the posts of a list response. *)
Definition returned_ids (r : Response) : list N :=
  match res_json r with
  | Posts posts _ => posts.*1
  | _ => []
  end.

(** The caller may see the post in a list: it is public, or it is private
    and the caller's own. *)
Definition visible (user : option User) (p : Post) : Prop :=
  privacy p = "public" ∨ (privacy p = "private" ∧ is_author user p).

(** The post passes the optional tag and search filters of the query. *)
Definition selected (text_search : string → option (Post → bool)) (q : Query)
  (p : Post) : Prop :=
  (∀ t, truthy_string (query_tags q) = Some t →
        ∃ x, x ∈ tags p ∧ x ∈ JS.split_comma t)
  ∧ (∀ s, truthy_string (query_search q) = Some s →
          ∃ found, text_search s = Some found ∧ found p = true).

(** The post belongs to the list the caller asks for. *)
Definition listable (text_search : string → option (Post → bool))
  (user : option User) (q : Query) (p : Post) : Prop :=
  status p = "published" ∧ visible user p ∧ selected text_search q p.

(** Newest first. *)
Definition newer_first (a b : N * Post) : Prop :=
  (createdAt b.2 ≤ createdAt a.2)%N.

(** The stores reached from the empty collection by requests handled one
    after the other. *)
Inductive reachable (slugify : string → string)
  (text_search : string → option (Post → bool)) : gmap N Post → Prop :=
  | reachable_empty : reachable slugify text_search ∅
  | reachable_handle env st r :
      reachable slugify text_search st →
      reachable slugify text_search (handle slugify text_search env st r).2.

(** The posts and the pagination of a list response. *)
Definition response_posts (r : Response) : list (N * Post) :=
  match res_json r with
  | Posts posts _ => posts
  | _ => []
  end.


(** ** Vocabulary of the further properties *)

(** Who makes the request, when it says. *)
Definition caller (r : Request) : option User :=
  match r with
  | GetPosts user _ | GetPostBySlug user _ | GetUserPosts user _ => user
  | GetPostById user _ | CreatePost user _ | UpdatePost user _ _
  | DeletePost user _ | ToggleLike user _ => Some user
  end.

(** The fields of a post that its author writes. *)
Definition editorial (p : Post)
  : string * string * option string * list string * string * string * string :=
  (title p, content p, excerpt p, tags p, privacy p, coverImage p, status p).

(** The same query for another page. *)
Definition with_page (q : Query) (k : nat) : Query :=
  mkQuery (query_tags q) (Some (Z.of_nat k)) (query_limit q) (query_search q).

(** The tags a create form can hold: none at first, then what clicks on
    the check boxes make of them. *)
Inductive form_tags_reached : list string → Prop :=
  | form_tags_start : form_tags_reached []
  | form_tags_click tag l :
      form_tags_reached l → tag ∈ tag_boxes →
      form_tags_reached (handleTagChange tag l).

(** The characters of a slug: [a-z], [0-9] and the hyphen. *)
Definition url_char (c : ascii) : bool :=
  let n := JS.char_code c in
  ((97 <=? n) && (n <=? 122) || (48 <=? n) && (n <=? 57) || (n =? 45))%N.

(** What the validation chain of create asks of a body: a title of 1 to 200
    characters once trimmed, a content, one or two tags of the enumeration,
    a privacy of the enumeration, and an excerpt, if any, of at most 300
    characters. *)
Definition create_body_ok (b : Body) : Prop :=
  (∃ t, body_title b = Some t ∧ JS.trim t ≠ ""
        ∧ String.length (JS.trim t) ≤ 200)
  ∧ (∃ c, body_content b = Some c ∧ c ≠ "")
  ∧ (∃ ts, body_tags b = Some ts ∧ 1 ≤ length ts ≤ 2
           ∧ ∀ t, t ∈ ts → t = "technical" ∨ t = "personal")
  ∧ (∃ v, body_privacy b = Some v ∧ (v = "public" ∨ v = "private"))
  ∧ (∀ e, body_excerpt b = Some e → String.length e ≤ 300).

(** * Properties *)

(** ** The collection *)

Lemma findOne_slug_Some (st : gmap N Post) s id p :
  findOne_slug st s = Some (id, p) → st !! id = Some p ∧ slug p = s.
Proof.
  unfold findOne_slug. intros H.
  apply head_Some_elem_of, list_elem_of_filter in H as [Hs Hin].
  by apply elem_of_map_to_list in Hin.
Qed.

Lemma findOne_slug_None (st : gmap N Post) s id p :
  findOne_slug st s = None → st !! id = Some p → slug p ≠ s.
Proof.
  unfold findOne_slug. intros H Hp Hs.
  apply head_None in H.
  assert (Hin : (id, p) ∈ filter (λ kp : N * Post, slug kp.2 = s) (map_to_list st)).
  { apply list_elem_of_filter. split; [done|]. by apply elem_of_map_to_list. }
  rewrite H in Hin. by apply not_elem_of_nil in Hin.
Qed.

Lemma findOne_slug_stored (st : gmap N Post) id p :
  st !! id = Some p → is_Some (findOne_slug st (slug p)).
Proof.
  intros Hp. destruct (findOne_slug st (slug p)) as [kp|] eqn:E; [by eexists|].
  by destruct (findOne_slug_None st (slug p) id p E Hp).
Qed.

Lemma not_author_false user p : not_author user p = false ↔ is_author user p.
Proof.
  unfold not_author, is_author, same_user. destruct user as [u|]; split.
  - intros H. exists u. split; [done|].
    apply negb_false_iff, N.eqb_eq in H. done.
  - intros (u' & [= <-] & H). by apply negb_false_iff, N.eqb_eq.
  - done.
  - by intros (u' & ? & _).
Qed.

Lemma not_author_true user p : not_author user p = true ↔ ¬ is_author user p.
Proof.
  rewrite <- not_author_false. by destruct (not_author user p).
Qed.

(** ** Get by slug *)


(** C3.  Reading a stored post by its slug adds exactly one to the stored
    [views] of a public post read by someone who is not its author: the
    document stored after the read has the views of before plus one and
    every other field as it was, and every other document is left alone.
    A read by the author, or of a private post, leaves the whole store as
    it was, the views of the post among the rest. *)
Theorem get_by_slug_views (st : gmap N Post) user s id p :
  s ≠ "" →
  findOne_slug st s = Some (id, p) →
  (privacy p = "public" → ¬ is_author user p →
   ∃ p',
     (get_post_by_slug st user s).2 !! id = Some p'
     ∧ views p' = (views p + 1)%N
     ∧ same_but_views p p'
     ∧ ∀ j, j ≠ id → (get_post_by_slug st user s).2 !! j = st !! j)
  ∧ (is_author user p ∨ privacy p = "private" →
     (get_post_by_slug st user s).2 = st
     ∧ views <$> (get_post_by_slug st user s).2 !! id = Some (views p)).
Proof.
  intros Hs Hfind. unfold get_post_by_slug.
  apply String.eqb_neq in Hs. rewrite Hs, Hfind.
  destruct (findOne_slug_Some _ _ _ _ Hfind) as [Hp _]. split.
  - intros Hpub Hna. apply not_author_true in Hna.
    rewrite Hpub, Hna. simpl. exists (set_views (views p + 1) p).
    split; [by rewrite lookup_alter_eq, Hp|]. split; [done|].
    split; [by repeat split|].
    intros j Hj. by rewrite lookup_alter_ne.
  - intros [Ha | Hpriv].
    + apply not_author_false in Ha. rewrite Ha, !andb_false_r. simpl.
      by rewrite Hp.
    + rewrite Hpriv. simpl. destruct (not_author user p); simpl; by rewrite Hp.
Qed.

(** ** Toggle like *)

Lemma occurrences_cons (u a : N) (l : list N) :
  occurrences u (a :: l) = (if decide (a = u) then 1 else 0) + occurrences u l.
Proof. unfold occurrences. rewrite filter_cons. by destruct (decide (a = u)). Qed.

Lemma occurrences_app (u : N) (l k : list N) :
  occurrences u (l ++ k) = occurrences u l + occurrences u k.
Proof. unfold occurrences. by rewrite filter_app, length_app. Qed.

Lemma occurrences_0 (u : N) (l : list N) : occurrences u l = 0 ↔ u ∉ l.
Proof.
  induction l as [|a l IH]; [by split; [intros _; apply not_elem_of_nil|]|].
  rewrite occurrences_cons, not_elem_of_cons.
  destruct (decide (a = u)) as [->|Hne]; simpl.
  - split; [lia|]. by intros [? _].
  - rewrite IH. split; [by intros ?; split|]. by intros [_ ?].
Qed.


Lemma not_elem_of_filter_ne (u : N) (l : list N) : u ∉ filter (λ i, i ≠ u) l.
Proof. rewrite list_elem_of_filter. by intros [? _]. Qed.


Lemma toggled_likes_occurrences (u : N) (l : list N) : occurrences u (toggled_likes u l) ≤ 1.
Proof.
  unfold toggled_likes. case_bool_decide as Hin.
  - assert (occurrences u (filter (λ i, i ≠ u) l) = 0) as ->; [|lia].
    apply occurrences_0, not_elem_of_filter_ne.
  - rewrite occurrences_app. apply occurrences_0 in Hin. rewrite Hin.
    unfold occurrences. rewrite filter_cons_True by done. simpl. lia.
Qed.


Lemma schema_valid_set_likes l p : schema_valid (set_likes l p) = schema_valid p.
Proof. done. Qed.

(** Saving a stored document whose [likes] alone changed writes it back as
    it is, when it passes the schema. *)
Lemma save_likes now (st : gmap N Post) id p :
  save now st id (mkDoc p false ["likes"])
  = if schema_valid p then Some (<[id := p]> st, p) else None.
Proof. unfold save. simpl. by destruct (schema_valid p). Qed.

Lemma may_like_test user p :
  may_like user p ↔
  String.eqb (privacy p) "private"
  && negb (same_user (author p) (user_id user)) = false.
Proof.
  unfold may_like, same_user. rewrite andb_false_iff, negb_false_iff.
  rewrite String.eqb_neq, N.eqb_eq. done.
Qed.

(** A toggle that is answered 200 stored the toggled [likes] and nothing
    else. *)
Lemma toggle_like_done env (st : gmap N Post) user id r st' :
  toggle_like env st user id = (r, st') →
  res_status r = 200%N →
  ∃ p, st !! id = Some p ∧ may_like user p ∧ schema_valid p = true
       ∧ st' = <[id := set_likes (toggled_likes (user_id user) (likes p)) p]> st.
Proof.
  unfold toggle_like. destruct (st !! id) as [p|]; [|by intros [= <- <-]].
  destruct (_ && _) eqn:Hacc; [by intros [= <- <-]|].
  rewrite save_likes, schema_valid_set_likes.
  destruct (schema_valid p) eqn:Hv; [|by intros [= <- <-]].
  intros [= <- <-] _. exists p. by rewrite may_like_test.
Qed.

Lemma toggle_like_allowed env (st : gmap N Post) user id p :
  st !! id = Some p → may_like user p → schema_valid p = true →
  toggle_like env st user id
  = (mkResponse 200
       (LikeResult
          (if bool_decide (user_id user ∈ likes p)
           then "Post unliked" else "Post liked")
          (negb (bool_decide (user_id user ∈ likes p)))
          (length (toggled_likes (user_id user) (likes p)))),
     <[id := set_likes (toggled_likes (user_id user) (likes p)) p]> st).
Proof.
  intros Hp Hmay Hv. unfold toggle_like. rewrite Hp.
  apply may_like_test in Hmay. rewrite Hmay.
  by rewrite save_likes, schema_valid_set_likes, Hv.
Qed.

(** C9.  After a toggle that completed, the caller is in [likes] at most
    once, whatever the list held before: a caller who was in the list is
    gone from it, and a caller who was not has one entry pushed at the
    end. *)
Theorem toggle_like_single_entry env (st : gmap N Post) user id r st' :
  toggle_like env st user id = (r, st') →
  res_status r = 200%N →
  ∃ p p',
    st !! id = Some p ∧ st' !! id = Some p'
    ∧ occurrences (user_id user) (likes p') ≤ 1
    ∧ (user_id user ∈ likes p → user_id user ∉ likes p')
    ∧ (user_id user ∉ likes p → likes p' = (likes p ++ [user_id user])%list).
Proof.
  intros Ht Hr.
  destruct (toggle_like_done _ _ _ _ _ _ Ht Hr) as (p & Hp & _ & _ & ->).
  eexists p, _. split; [done|]. split; [apply lookup_insert_eq|]. simpl.
  split; [apply toggled_likes_occurrences|].
  unfold toggled_likes. split; intros Hin.
  - rewrite bool_decide_eq_true_2 by done. apply not_elem_of_filter_ne.
  - by rewrite bool_decide_eq_false_2.
Qed.


(** ** Create *)

Section Create.

Variable slugify : string → string.

(** The document the hook leaves of a new post. *)
Lemma pre_save_new env user b s :
  pre_save (now env) (new_Post env user b s)
  = let d := doc (new_Post env user b s) in
    let p :=
      set_readTime (derive_readTime (content d))
        (set_slug (title_slug (title d) +:+ "-" +:+ JS.string_of_N (now env)) d)
    in
    if JS.falsy (body_excerpt b)
    then set_excerpt (Some (derive_excerpt (content d))) p
    else p.
Proof. reflexivity. Qed.

(** What an accepted create did. *)
Lemma create_post_created env (st : gmap N Post) user b r st' :
  create_post slugify env st user b = (r, st') →
  res_status r = 201%N →
  let s := slugify (default "" (body_title (sanitize b))) in
  let p := pre_save (now env) (new_Post env user (sanitize b) s) in
  validate_create (sanitize b) = []
  ∧ schema_valid (doc (new_Post env user (sanitize b) s)) = true
  ∧ findOne_slug st s = None
  ∧ st !! oid env = None
  ∧ findOne_slug st (slug p) = None
  ∧ r = mkResponse 201 (OnePost (Some "Post created successfully") (oid env) p)
  ∧ st' = <[oid env := p]> st.
Proof.
  unfold create_post.
  destruct (validate_create (sanitize b)) eqn:Hv; [|by intros [= <- <-]].
  destruct (findOne_slug st _) eqn:Hfind; [by intros [= <- <-]|].
  unfold save. destruct (schema_valid _) eqn:Hvalid; [|by intros [= <- <-]].
  cbv [isNew new_Post].
  case_bool_decide as Hid; simpl; [by intros [= <- <-]|].
  case_bool_decide as Hslug; simpl; [by intros [= <- <-]|].
  intros [= <- <-] _.
  apply eq_None_not_Some in Hid. apply eq_None_not_Some in Hslug. done.
Qed.

Lemma create_post_ignores_status env (st : gmap N Post) user b s :
  create_post slugify env st user (with_status s b)
  = create_post slugify env st user b.
Proof. reflexivity. Qed.

(** A create that finds the derived slug in the store answers 400 and stores
    nothing. *)
Lemma create_post_slug_found env (st : gmap N Post) user b id p :
  validate_create (sanitize b) = [] →
  st !! id = Some p →
  slug p = slugify (default "" (body_title (sanitize b))) →
  create_post slugify env st user b = (slug_exists, st).
Proof.
  intros Hv Hp Hs. unfold create_post. rewrite Hv, <- Hs.
  by destruct (findOne_slug_stored st id p Hp) as [kp ->].
Qed.

End Create.

(** ** One request against one document *)

Lemma handle_effect slugify text_search env (st : gmap N Post) r id :
  effect slugify env st r id (st !! id)
    ((handle slugify text_search env st r).2 !! id).
Proof.
  destruct r as [user q|user i|user s|user b|user i b|user i|user i|user i];
    simpl; try apply effect_none.
  - unfold get_post_by_slug. destruct (String.eqb s ""); [apply effect_none|].
    destruct (findOne_slug st s) as [[i p]|] eqn:Hfind; [|apply effect_none].
    apply findOne_slug_Some in Hfind as [Hp _].
    destruct (_ && _); [apply effect_none|].
    destruct (_ && _); [|apply effect_none]. simpl.
    destruct (decide (i = id)) as [->|Hne].
    + rewrite lookup_alter_eq, Hp. simpl. by eapply effect_view.
    + rewrite lookup_alter_ne by done. apply effect_none.
  - destruct (create_post slugify env st user b) as [res st'] eqn:Hc.
    destruct (decide (res_status res = 201%N)) as [H201|Hno].
    + destruct (create_post_created _ _ _ _ _ _ _ Hc H201)
        as (Hv & Hvalid & _ & Hfree & Hslug & _ & ->). simpl.
      destruct (decide (oid env = id)) as [<-|Hne].
      * rewrite lookup_insert_eq, Hfree. eapply effect_create; try done.
        intros j q Hq Heq. by apply (findOne_slug_None _ _ _ _ Hslug Hq).
      * rewrite lookup_insert_ne by done. apply effect_none.
    + assert (st' = st) as ->; [|apply effect_none].
      revert Hc Hno. unfold create_post.
      destruct (validate_create _); [|by intros [= <- <-]].
      destruct (findOne_slug st _); [by intros [= <- <-]|].
      destruct (save _ _ _ _) as [[? ?]|]; intros [= <- <-]; [|done].
      by intros [].
  - unfold update_post.
    destruct (validate_update _); [|apply effect_none].
    destruct (st !! i) as [p|] eqn:Hp; [|apply effect_none].
    destruct (negb _) eqn:Hauth; [apply effect_none|].
    apply negb_false_iff, N.eqb_eq in Hauth.
    unfold findByIdAndUpdate.
    destruct (update_valid _) eqn:Hv; [|apply effect_none].
    rewrite Hp. simpl.
    destruct (decide (i = id)) as [->|Hne].
    + rewrite lookup_alter_eq, Hp. simpl. by eapply effect_update.
    + rewrite lookup_alter_ne by done. apply effect_none.
  - unfold delete_post.
    destruct (st !! i) as [p|] eqn:Hp; [|apply effect_none].
    destruct (_ && _); [apply effect_none|]. simpl.
    destruct (decide (i = id)) as [->|Hne].
    + rewrite lookup_delete_eq, Hp. by eapply effect_delete.
    + rewrite lookup_delete_ne by done. apply effect_none.
  - unfold toggle_like.
    destruct (st !! i) as [p|] eqn:Hp; [|apply effect_none].
    destruct (_ && _); [apply effect_none|].
    rewrite save_likes, schema_valid_set_likes.
    destruct (schema_valid p) eqn:Hv; [|apply effect_none]. simpl.
    destruct (decide (i = id)) as [->|Hne].
    + rewrite lookup_insert_eq, Hp. by eapply effect_like.
    + rewrite lookup_insert_ne by done. apply effect_none.
Qed.

(** What the check of the route does refuse: a valid create request whose
    title derives, through [slugify], the very slug of a stored post is
    answered 400 with the message that the slug exists, and the store is
    left as it was. *)
Lemma create_rejects_stored_slug slugify env (st : gmap N Post) user b t id p :
  body_title b = Some t →
  validate_create (sanitize b) = [] →
  st !! id = Some p →
  slug p = slugify (JS.trim t) →
  create_post slugify env st user b = (slug_exists, st)
  ∧ res_status slug_exists = 400%N.
Proof.
  intros Ht Hv Hp Hs. split; [|done].
  eapply create_post_slug_found; [done..|].
  rewrite Hs. unfold sanitize. simpl. by rewrite Ht.
Qed.

(** C1, the failing input: a title is posted twice.  The route looks the
    slug of the title up to refuse the second create, but the hook has
    stored the first post under that slug followed by a hyphen and the
    creation time, so the look-up finds nothing: the second create of
    [Sample.hello] is answered 201 and stored, where the specification,
    and the route's own check and message, have it refused. *)
Lemma create_same_title_twice_accepted :
  res_status (create_post Sample.slugify Sample.first ∅ Sample.alice Sample.hello).1
  = 201%N
  ∧ (create_post Sample.slugify Sample.first ∅ Sample.alice Sample.hello).2
    = Sample.one_post
  ∧ res_status
      (create_post Sample.slugify Sample.second Sample.one_post Sample.alice
         Sample.hello).1
    = 201%N
  ∧ size
      (create_post Sample.slugify Sample.second Sample.one_post Sample.alice
         Sample.hello).2
    = 2
  ∧ slug <$> Sample.one_post !! 1%N = Some "hello-world-1700000000000"
  ∧ Sample.slugify "Hello World" = "hello-world".
Proof. vm_compute. done. Qed.

(** A created post is stored under the hook's slug, not under the one the
    route derived: the slug of the trimmed title, a hyphen, the time. *)
Lemma create_post_stored_slug slugify env (st : gmap N Post) user b r st' :
  create_post slugify env st user b = (r, st') →
  res_status r = 201%N →
  ∃ t p,
    body_title b = Some t ∧ st' !! oid env = Some p
    ∧ slug p
      = title_slug (JS.trim (JS.trim t)) +:+ "-" +:+ JS.string_of_N (now env).
Proof.
  intros Hc Hr.
  destruct (create_post_created _ _ _ _ _ _ _ Hc Hr) as (Hv & _ & _ & _ & _ & _ & ->).
  destruct (body_title b) as [t|] eqn:Ht.
  - exists t. eexists. split; [done|]. split; [apply lookup_insert_eq|].
    rewrite pre_save_new. cbv zeta.
    destruct (JS.falsy _); simpl; by rewrite Ht.
  - exfalso. revert Hv. unfold validate_create, sanitize. simpl.
    rewrite Ht. simpl. done.
Qed.

(** C10.  The status of a create request's body is not read, a created post
    is stored as published, and a stored draft that was no draft before the
    request was made one by an update of that post whose body asks for it. *)
Theorem create_status_published slugify text_search env (st : gmap N Post) user b :
  (∀ s, create_post slugify env st user (with_status s b)
        = create_post slugify env st user b)
  ∧ (∀ r st', create_post slugify env st user b = (r, st') →
       res_status r = 201%N →
       ∃ p, r = mkResponse 201
                  (OnePost (Some "Post created successfully") (oid env) p)
            ∧ st' !! oid env = Some p ∧ status p = "published")
  ∧ (∀ req id p',
       (handle slugify text_search env st req).2 !! id = Some p' →
       status p' = "draft" →
       (∃ p, st !! id = Some p ∧ status p = "draft")
       ∨ (∃ caller body, req = UpdatePost caller id body
                         ∧ body_status body = Some "draft")).
Proof.
  split; [intros s; apply create_post_ignores_status|]. split.
  - intros r st' Hc Hr.
    destruct (create_post_created _ _ _ _ _ _ _ Hc Hr) as (_ & _ & _ & _ & _ & -> & ->).
    eexists. split; [done|]. split; [apply lookup_insert_eq|].
    rewrite pre_save_new. cbv zeta. by destruct (JS.falsy _).
  - intros req id p' Hp' Hdraft.
    pose proof (handle_effect slugify text_search env st req id) as He.
    rewrite Hp' in He.
    inversion He as [o Ho|caller s p Hreq Ho
                    |caller body Hreq Hid Hv Hvalid Hslug Ho
                    |caller body p Hreq Hauth Hv Ho|caller p Hreq Ho
                    |caller p Hreq Hv Ho]; subst.
    + left. by exists p'.
    + left. by exists p.
    + exfalso. revert Hdraft. rewrite pre_save_new. cbv zeta.
      by destruct (JS.falsy _).
    + revert Hdraft. simpl. destruct (body_status body) as [s|] eqn:Hs; simpl.
      * intros ->. right. by exists caller, body.
      * intros Hd. left. by exists p.
    + left. by exists p.
Qed.

(** ** Read time and excerpt *)

Lemma length_append (a b : string) :
  String.length (a +:+ b) = String.length a + String.length b.
Proof. induction a as [|c a IH]; simpl; [done|]. by rewrite IH. Qed.

Lemma length_substring_0 n (s : string) : String.length (substring 0 n s) ≤ n.
Proof.
  revert s. induction n as [|n IH]; intros [|c s]; simpl; try lia.
  specialize (IH s). lia.
Qed.

Lemma length_trimStart (s : string) :
  String.length (JS.trimStart s) ≤ String.length s.
Proof.
  induction s as [|c s IH]; simpl; [done|]. destruct (JS.is_space c); simpl; lia.
Qed.

Lemma length_trimEnd (s : string) :
  String.length (JS.trimEnd s) ≤ String.length s.
Proof.
  induction s as [|c s IH]; simpl; [done|].
  destruct (JS.trimEnd s); [destruct (JS.is_space c)|]; simpl in *; lia.
Qed.

Lemma length_trim (s : string) : String.length (JS.trim s) ≤ String.length s.
Proof.
  unfold JS.trim. etrans; [apply length_trimEnd|apply length_trimStart].
Qed.

(** A derived excerpt has at most 150 characters before its three dots. *)
Lemma length_derive_excerpt (c : string) :
  String.length (derive_excerpt c) ≤ 153.
Proof.
  unfold derive_excerpt. rewrite length_append. simpl.
  pose proof (length_trim (substring 0 150 (JS.remove_chars is_markup c))).
  pose proof (length_substring_0 150 (JS.remove_chars is_markup c)). lia.
Qed.

Lemma split_runs_nonempty q (s : string) : JS.split_runs q s ≠ [].
Proof.
  induction s as [|c r IH]; simpl; [done|].
  destruct (q c); [by destruct (JS.starts_with q r)|].
  by destruct (JS.split_runs q r).
Qed.

(** The pieces of [split(/\s+/)] are the words, one empty piece more for a
    text that is empty or starts with white space, and one more for a text
    that ends with white space. *)
Lemma wordCount_word_count (s : string) :
  wordCount s
  = word_count s
    + (if JS.starts_with JS.is_space s || String.eqb s "" then 1 else 0)
    + (if ends_with_space s then 1 else 0).
Proof.
  unfold wordCount. induction s as [|c r IH]; [done|].
  destruct r as [|d r'] eqn:Hr.
  { simpl. by destruct (JS.is_space c). }
  rewrite <- Hr in *.
  assert (He : ends_with_space (String c r) = ends_with_space r)
    by by rewrite Hr.
  assert (Hq : String.eqb r "" = false) by by rewrite Hr.
  assert (Hsw : ∀ q, JS.starts_with q r = q d) by by rewrite Hr.
  clear Hr. rewrite He. rewrite Hq, orb_false_r, Hsw in IH.
  cbn [JS.split_runs word_count JS.starts_with String.eqb].
  rewrite !Hsw, orb_false_r.
  pose proof (split_runs_nonempty JS.is_space r) as Hne.
  destruct (JS.split_runs JS.is_space r) as [|piece pieces]; [done|].
  destruct (JS.is_space c), (JS.is_space d), (ends_with_space r);
    simpl in *; lia.
Qed.

(** For a text that neither starts nor ends with white space the read time
    is its number of words over 200, rounded up. *)
Lemma derive_readTime_words (s : string) :
  s ≠ "" → JS.starts_with JS.is_space s = false → ends_with_space s = false →
  derive_readTime s = JS.ceil_div (word_count s) 200.
Proof.
  intros Hs Hstart Hend. unfold derive_readTime.
  rewrite wordCount_word_count, Hstart, Hend.
  apply String.eqb_neq in Hs. rewrite Hs. simpl. by rewrite !Nat.add_0_r.
Qed.

(** The fields a create derives from the content: the read time from the
    pieces of the split, and, for a body whose excerpt is absent or empty,
    the excerpt. *)
Lemma create_post_derived slugify env (st : gmap N Post) user b r st' :
  create_post slugify env st user b = (r, st') →
  res_status r = 201%N →
  ∃ c p,
    body_content b = Some c ∧ st' !! oid env = Some p
    ∧ readTime p = JS.ceil_div (wordCount c) 200
    ∧ (JS.falsy (body_excerpt b) = true →
       excerpt p
       = Some (JS.trim (substring 0 150 (JS.remove_chars is_markup c)) +:+ "...")
       ∧ String.length (derive_excerpt c) ≤ 153).
Proof.
  intros Hc Hr.
  destruct (create_post_created _ _ _ _ _ _ _ Hc Hr) as (Hv & _ & _ & _ & _ & _ & ->).
  destruct (body_content b) as [c|] eqn:Hcont.
  - exists c. eexists. split; [done|]. split; [apply lookup_insert_eq|].
    rewrite pre_save_new. cbv zeta. simpl. rewrite Hcont. simpl. split.
    + by destruct (JS.falsy _).
    + intros ->. simpl. split; [done|apply length_derive_excerpt].
  - exfalso. revert Hv. unfold validate_create, sanitize. simpl.
    rewrite Hcont. simpl. destruct (check _ _), (check _ _); done.
Qed.

(** C6, the failing input: a thousand times "word " is a text of 1000
    words, the specification gives it a read time of 5, and the created
    post is stored with 6, the split having a piece after the last space. *)
Lemma thousand_words_read_time :
  word_count (Sample.repeat_string 1000 "word ") = 1000
  ∧ JS.ceil_div 1000 200 = 5
  ∧ wordCount (Sample.repeat_string 1000 "word ") = 1001
  ∧ readTime
      <$> Sample.create Sample.first ∅ Sample.alice
            (Sample.body "Long read" (Sample.repeat_string 1000 "word ")
               "technical" "public") !! 1%N
    = Some 6.
Proof. vm_compute. done. Qed.

(** ** Update *)

(** An update never touches the read time or the slug, and touches the
    excerpt only when the body carries one: the query skips the hook. *)
Lemma update_post_keeps_derived (st : gmap N Post) user id b p p' :
  st !! id = Some p →
  (update_post st user id b).2 !! id = Some p' →
  readTime p' = readTime p ∧ slug p' = slug p
  ∧ (body_excerpt b = None → excerpt p' = excerpt p).
Proof.
  intros Hp Hp'.
  pose proof (handle_effect (λ t, t) (λ _, None) (mkEnv 0 0 (λ i, i)) st
                (UpdatePost user id b) id) as He.
  simpl in He. rewrite Hp, Hp' in He.
  inversion He as [o Ho| | |caller body q Hreq Hauth Hv Ho| |]; subst;
    try discriminate; [done|].
  injection Hreq as -> ->. simpl. split; [done|]. split; [done|].
  by intros ->.
Qed.

(** C2, the failing input: the author replaces the two words of the content
    of a post by 401 words.  The update is answered 200 and the content is
    stored, but the read time stays 1 and the excerpt stays the one of the
    old content, while the derivation of create gives 3 and an excerpt of
    the new content. *)
Lemma update_content_keeps_read_time :
  res_status
    (update_post Sample.one_post Sample.alice 1
       (mkBody None (Some (Sample.repeat_string 400 "word " +:+ "end")) None
          None None None None None)).1
  = 200%N
  ∧ (λ p, (content p, readTime p, excerpt p))
      <$> (update_post Sample.one_post Sample.alice 1
             (mkBody None (Some (Sample.repeat_string 400 "word " +:+ "end"))
                None None None None None None)).2 !! 1%N
    = Some (Sample.repeat_string 400 "word " +:+ "end", 1,
            Some "First post...")
  ∧ derive_readTime (Sample.repeat_string 400 "word " +:+ "end") = 3
  ∧ derive_excerpt (Sample.repeat_string 400 "word " +:+ "end")
    = Sample.repeat_string 29 "word " +:+ "word..."
  ∧ (λ p, (content p, readTime p, excerpt p)) <$> Sample.one_post !! 1%N
    = Some ("First post", 1, Some "First post...").
Proof. vm_compute. done. Qed.

(** ** List *)

(** The three values of [tags] that the list route lets through. *)
Lemma validate_list_tags (t : string) :
  validate_list (mkQuery (Some t) None None None) = []
  ↔ t = "technical" ∨ t = "personal" ∨ t = "technical,personal".
Proof.
  assert (Hin : t ∈ list_tags_allowed
                ↔ t = "technical" ∨ t = "personal" ∨ t = "technical,personal").
  { unfold list_tags_allowed. rewrite !elem_of_cons, elem_of_nil. tauto. }
  unfold validate_list, check, in_enum. simpl. rewrite app_nil_r, <- Hin.
  case_bool_decide; split; done.
Qed.

(** C8, the failing input: [tags=personal,technical], the two tags of the
    enumeration joined in the other order, is answered 400 with the
    message of the tags validator, whoever asks and whatever is stored;
    [technical,personal] is let through. *)
Lemma list_tags_other_order_rejected :
  get_posts Sample.text_search Sample.first Sample.one_post None
    (mkQuery (Some "personal,technical") None None None)
  = validation_failed ["Tags must be technical, personal, or both"]
  ∧ res_status
      (get_posts Sample.text_search Sample.first Sample.one_post None
         (mkQuery (Some "personal,technical") None None None))
    = 400%N
  ∧ JS.split_comma "personal,technical" = ["personal"; "technical"]
  ∧ returned_ids
      (get_posts Sample.text_search Sample.first Sample.one_post None
         (mkQuery (Some "technical,personal") None None None))
    = [1%N].
Proof. vm_compute. done. Qed.

Lemma insert_desc_perm natural x l : insert_desc natural x l ≡ₚ x :: l.
Proof.
  induction l as [|y l IH]; simpl; [done|].
  destruct (comes_first natural x y); [done|]. rewrite IH.
  apply Permutation_swap.
Qed.

Lemma sort_createdAt_desc_perm natural l : sort_createdAt_desc natural l ≡ₚ l.
Proof.
  induction l as [|x l IH]; simpl; [done|].
  by rewrite insert_desc_perm, IH.
Qed.

Lemma comes_first_newer natural x y :
  comes_first natural x y = true → newer_first x y.
Proof.
  unfold comes_first, newer_first.
  intros [H|[H _]%andb_true_iff]%orb_true_iff.
  - apply N.ltb_lt in H. lia.
  - apply N.eqb_eq in H. lia.
Qed.

Lemma comes_later_older natural x y :
  comes_first natural x y = false → newer_first y x.
Proof.
  unfold comes_first, newer_first. intros [H _]%orb_false_iff.
  by apply N.ltb_ge in H.
Qed.

Lemma insert_desc_sorted natural x l :
  Sorted newer_first l → Sorted newer_first (insert_desc natural x l).
Proof.
  induction 1 as [|y l Hl IH Hhd]; simpl; [by repeat constructor|].
  destruct (comes_first natural x y) eqn:Hxy.
  - constructor; [by constructor|].
    constructor. by eapply comes_first_newer.
  - apply comes_later_older in Hxy. constructor; [done|].
    destruct Hhd as [|z l Hz]; simpl; [by constructor|].
    destruct (comes_first natural x z); by constructor.
Qed.

Lemma sort_createdAt_desc_sorted natural l :
  Sorted newer_first (sort_createdAt_desc natural l).
Proof.
  induction l as [|x l IH]; simpl; [constructor|]. by apply insert_desc_sorted.
Qed.

Lemma clause_matches_spec p (c : string * option N) :
  clause_matches p c = true
  ↔ privacy p = c.1 ∧ ∀ a, c.2 = Some a → author p = a.
Proof.
  unfold clause_matches. rewrite andb_true_iff, String.eqb_eq.
  destruct c as [v [a|]]; simpl.
  - rewrite N.eqb_eq. split; intros [Hv Ha]; (split; [done|]).
    + by intros a' [= <-].
    + by apply Ha.
  - split; intros [Hv _]; by split.
Qed.

Lemma tags_in_spec (wanted : option (list string)) p :
  opt_test wanted (λ w, existsb (λ t, bool_decide (t ∈ w)) (tags p)) = true
  ↔ ∀ w, wanted = Some w → ∃ x, x ∈ tags p ∧ x ∈ w.
Proof.
  destruct wanted as [w|]; simpl; [|by split].
  rewrite existsb_exists. split.
  - intros (x & Hx & Hd) w' [= <-]. exists x.
    apply bool_decide_eq_true in Hd. by rewrite list_elem_of_In.
  - intros H. destruct (H w eq_refl) as (x & Hx & Hd). exists x.
    rewrite <- list_elem_of_In. by rewrite bool_decide_eq_true.
Qed.

Lemma visible_anonymous p : visible None p ↔ privacy p = "public".
Proof.
  unfold visible, is_author. split; [|by left].
  by intros [?|[_ (u & ? & _)]].
Qed.

Lemma visible_user u p :
  visible (Some u) p
  ↔ clause_matches p ("public", None) = true
    ∨ clause_matches p ("private", Some (user_id u)) = true.
Proof.
  unfold visible, is_author. rewrite !clause_matches_spec. simpl. split.
  - intros [?|[? (u' & [= <-] & Ha)]]; [left|right]; split; try done.
    by intros a [= <-].
  - intros [[? _]|[? Ha]]; [by left|right]. split; [done|].
    exists u. split; [done|]. symmetry. by apply Ha.
Qed.

Lemma matches_list_filter text_search user q p :
  matches text_search (list_filter user q) p = true
  ↔ listable text_search user q p.
Proof.
  unfold matches, list_filter, listable, selected. simpl.
  rewrite !andb_true_iff, String.eqb_eq, tags_in_spec.
  assert (Htags :
    (∀ w, JS.split_comma <$> truthy_string (query_tags q) = Some w →
          ∃ x, x ∈ tags p ∧ x ∈ w)
    ↔ ∀ t, truthy_string (query_tags q) = Some t →
           ∃ x, x ∈ tags p ∧ x ∈ JS.split_comma t).
  { destruct (truthy_string (query_tags q)) as [t|]; simpl; split; try done.
    - intros H t' [= <-]. by apply H.
    - intros H w [= <-]. by apply H. }
  assert (Htext :
    opt_test (truthy_string (query_search q))
      (λ s, from_option (λ found, found p) false (text_search s)) = true
    ↔ ∀ s, truthy_string (query_search q) = Some s →
           ∃ found, text_search s = Some found ∧ found p = true).
  { destruct (truthy_string (query_search q)) as [s|]; simpl; split; try done.
    - intros H s' [= <-]. destruct (text_search s) as [found|]; [|done].
      by exists found.
    - intros H. destruct (H s eq_refl) as (found & -> & Hf). done. }
  rewrite Htags, Htext. clear Htags Htext.
  destruct user as [u|]; simpl.
  - rewrite orb_false_r, orb_true_iff, <- visible_user. tauto.
  - rewrite String.eqb_eq, visible_anonymous. tauto.
Qed.

(** What the list route finds: every stored post the caller may list, once. *)
Lemma find_list_filter text_search (st : gmap N Post) user q found id p :
  find text_search (list_filter user q) st = Some found →
  (id, p) ∈ found ↔ st !! id = Some p ∧ listable text_search user q p.
Proof.
  unfold find. destruct (refused _ _); [done|]. intros [= <-].
  rewrite list_elem_of_filter, elem_of_map_to_list. simpl.
  rewrite matches_list_filter. tauto.
Qed.

Lemma NoDup_find text_search (st : gmap N Post) f found :
  find text_search f st = Some found → NoDup found.
Proof.
  unfold find. destruct (refused _ _); [done|]. intros [= <-].
  apply NoDup_filter, NoDup_map_to_list.
Qed.

Lemma check_nil ok msg : check ok msg = [] ↔ ok = true.
Proof. unfold check. by destruct ok. Qed.

Lemma validate_list_parts q :
  validate_list q = [] →
  (∀ t, query_tags q = Some t → in_enum list_tags_allowed t = true)
  ∧ (∀ n, query_page q = Some n → 1 ≤ n)%Z
  ∧ (∀ n, query_limit q = Some n → 1 ≤ n ≤ 50)%Z.
Proof.
  unfold validate_list.
  intros [Ht [Hp Hl]%app_eq_nil]%app_eq_nil. split; [|split].
  - intros t Hq. rewrite Hq in Ht. by apply check_nil in Ht.
  - intros n Hq. rewrite Hq in Hp. apply check_nil in Hp. lia.
  - intros n Hq. rewrite Hq in Hl. apply check_nil in Hl. lia.
Qed.




(** ** Stores that requests build *)

Lemma NoDup_toggled_likes (u : N) (l : list N) :
  NoDup l → NoDup (toggled_likes u l).
Proof.
  intros Hl. unfold toggled_likes. case_bool_decide as Hin.
  - by apply NoDup_filter.
  - apply NoDup_app. split; [done|]. split; [|apply NoDup_singleton].
    intros x Hx ->%list_elem_of_singleton. done.
Qed.

Lemma hyphenated_not_empty (a b : string) : String.eqb (a +:+ "-" +:+ b) "" = false.
Proof. by destruct a. Qed.

Lemma schema_valid_pre_save_new env user b s :
  schema_valid (doc (new_Post env user b s)) = true →
  schema_valid (pre_save (now env) (new_Post env user b s)) = true.
Proof.
  rewrite pre_save_new. cbv zeta. unfold schema_valid.
  destruct (JS.falsy (body_excerpt b)); simpl;
    rewrite !andb_true_iff, hyphenated_not_empty; intros H; repeat split;
    try apply H.
  apply Nat.leb_le. pose proof (length_derive_excerpt (default "" (body_content b))).
  lia.
Qed.

Lemma schema_valid_apply_update u p :
  update_valid u = true → schema_valid p = true →
  schema_valid (apply_update u p) = true.
Proof.
  unfold update_valid, schema_valid. rewrite !andb_true_iff. simpl.
  intros Hu Hp. destruct_and!.
  destruct (body_title u), (body_content u), (body_tags u), (body_privacy u),
    (body_excerpt u), (body_status u); simpl in *;
    rewrite ?andb_true_iff in *; destruct_and?; split_and!; done.
Qed.


(** Every document of a reachable store passes the schema and holds no
    user twice in [likes]. *)
Lemma reachable_documents slugify text_search (st : gmap N Post) id p :
  reachable slugify text_search st →
  st !! id = Some p →
  schema_valid p = true ∧ NoDup (likes p).
Proof.
  intros Hreach. revert id p.
  induction Hreach as [|env st r Hreach IH]; intros id p Hp.
  { by rewrite lookup_empty in Hp. }
  pose proof (handle_effect slugify text_search env st r id) as He.
  rewrite Hp in He.
  inversion He as [o Ho|caller s q Hreq Ho
                  |caller body Hreq Hid Hv Hvalid Hslug Ho
                  |caller body q Hreq Hauth Hv Ho|caller q Hreq Ho
                  |caller q Hreq Hv Ho]; subst.
  - by apply (IH id p).
  - destruct (IH id q) as [Hq Hl]; [done|]. by split.
  - split; [by apply schema_valid_pre_save_new|].
    rewrite pre_save_new. cbv zeta. destruct (JS.falsy _); simpl; constructor.
  - destruct (IH id q) as [Hq Hl]; [done|].
    split; [by apply schema_valid_apply_update|done].
  - destruct (IH id q) as [Hq Hl]; [done|].
    split; [done|]. simpl. by apply NoDup_toggled_likes.
Qed.

(** No two documents of a reachable store have the same slug. *)
Lemma reachable_slug_unique slugify text_search (st : gmap N Post) i j p q :
  reachable slugify text_search st →
  st !! i = Some p → st !! j = Some q → slug p = slug q → i = j.
Proof.
  intros Hreach. revert i j p q.
  induction Hreach as [|env st r Hreach IH]; intros i j p q Hp Hq Hs.
  { by rewrite lookup_empty in Hp. }
  assert (Hold : ∀ k x,
    (handle slugify text_search env st r).2 !! k = Some x →
    (∃ x0, st !! k = Some x0 ∧ slug x0 = slug x)
    ∨ (st !! k = None ∧ k = oid env
       ∧ ∀ k0 x0, st !! k0 = Some x0 → slug x0 ≠ slug x)).
  { intros k x Hx.
    pose proof (handle_effect slugify text_search env st r k) as He.
    rewrite Hx in He.
    inversion He as [o Ho|caller s y Hreq Ho
                    |caller body Hreq Hid Hv Hvalid Hslug Ho
                    |caller body y Hreq Hauth Hv Ho|caller y Hreq Ho
                    |caller y Hreq Hv Ho]; subst;
      try (left; by eexists).
    right. done. }
  destruct (Hold i p Hp) as [(p0 & Hp0 & Hsp)|(Hnone & -> & Hfresh)],
           (Hold j q Hq) as [(q0 & Hq0 & Hsq)|(Hnone' & -> & Hfresh')].
  - apply (IH i j p0 q0); congruence.
  - destruct (Hfresh' i p0 Hp0). congruence.
  - destruct (Hfresh j q0 Hq0). congruence.
  - done.
Qed.

(** In a reachable store the slug of a stored post is not empty and
    resolves to that post. *)
Lemma findOne_slug_reachable slugify text_search (st : gmap N Post) id p :
  reachable slugify text_search st →
  st !! id = Some p →
  slug p ≠ "" ∧ findOne_slug st (slug p) = Some (id, p).
Proof.
  intros Hreach Hp. split.
  - destruct (reachable_documents _ _ _ _ _ Hreach Hp) as [Hv _].
    unfold schema_valid in Hv. rewrite !andb_true_iff in Hv.
    destruct_and!. by apply String.eqb_neq, negb_true_iff.
  - destruct (findOne_slug_stored st id p Hp) as [[j q] Hfind].
    rewrite Hfind. destruct (findOne_slug_Some _ _ _ _ Hfind) as [Hq Hs].
    assert (j = id) as -> by by eapply reachable_slug_unique.
    congruence.
Qed.



(** ** The theorems at work on the sample data *)

(** Bob's title derives the slug of Alice's stored post: rejected. *)
Lemma create_rejects_stored_slug_witness :
  create_post Sample.slugify Sample.second Sample.one_post Sample.bob
    (Sample.body "hello world 1700000000000" "Again" "personal" "public")
  = (slug_exists, Sample.one_post)
  ∧ res_status slug_exists = 400%N.
Proof.
  apply (create_rejects_stored_slug Sample.slugify Sample.second
           Sample.one_post Sample.bob _ "hello world 1700000000000" 1
           Sample.hello_post).
  - reflexivity.
  - vm_compute. reflexivity.
  - vm_compute. reflexivity.
  - vm_compute. reflexivity.
Defined.

(** Bob reads Alice's public post: one more view. *)
Lemma get_by_slug_views_witness :
  (∃ p',
     (get_post_by_slug Sample.one_post (Some Sample.bob)
        "hello-world-1700000000000").2 !! 1%N
     = Some p'
     ∧ views p' = (views Sample.hello_post + 1)%N
     ∧ same_but_views Sample.hello_post p'
     ∧ ∀ j, j ≠ 1%N →
            (get_post_by_slug Sample.one_post (Some Sample.bob)
               "hello-world-1700000000000").2 !! j
            = Sample.one_post !! j)
  ∧ ((get_post_by_slug Sample.one_post (Some Sample.alice)
        "hello-world-1700000000000").2
     = Sample.one_post
     ∧ views
         <$> (get_post_by_slug Sample.one_post (Some Sample.alice)
                "hello-world-1700000000000").2 !! 1%N
       = Some (views Sample.hello_post)).
Proof.
  split.
  - apply (get_by_slug_views Sample.one_post (Some Sample.bob)
             "hello-world-1700000000000" 1 Sample.hello_post).
    + discriminate.
    + vm_compute. reflexivity.
    + reflexivity.
    + intros (u & [= <-] & Hu). discriminate.
  - apply (get_by_slug_views Sample.one_post (Some Sample.alice)
             "hello-world-1700000000000" 1 Sample.hello_post).
    + discriminate.
    + vm_compute. reflexivity.
    + left. exists Sample.alice. split; reflexivity.
Defined.




(** Bob likes Alice's post. *)
Lemma toggle_like_single_entry_witness :
  ∃ p p',
    Sample.one_post !! 1%N = Some p
    ∧ Sample.liked_by_bob !! 1%N = Some p'
    ∧ occurrences (user_id Sample.bob) (likes p') ≤ 1
    ∧ (user_id Sample.bob ∈ likes p → user_id Sample.bob ∉ likes p')
    ∧ (user_id Sample.bob ∉ likes p
       → likes p' = (likes p ++ [user_id Sample.bob])%list).
Proof.
  apply (toggle_like_single_entry Sample.third Sample.one_post Sample.bob 1
           (toggle_like Sample.third Sample.one_post Sample.bob 1).1).
  - apply surjective_pairing.
  - vm_compute. reflexivity.
Defined.

(** Alice's create request asks for a draft: stored as published. *)
Lemma create_status_published_witness :
  ∃ p,
    (create_post Sample.slugify Sample.first ∅ Sample.alice Sample.draft_body).1
    = mkResponse 201 (OnePost (Some "Post created successfully") 1 p)
    ∧ (create_post Sample.slugify Sample.first ∅ Sample.alice
         Sample.draft_body).2 !! 1%N
      = Some p
    ∧ status p = "published".
Proof.
  apply (proj1 (proj2 (create_status_published Sample.slugify
                         Sample.text_search Sample.first ∅ Sample.alice
                         Sample.draft_body))).
  - apply surjective_pairing.
  - vm_compute. reflexivity.
Defined.

(** * Further properties of the router *)

(** ** What a request leaves alone *)

Ltac effect_cases He :=
  inversion He as [o Ho|who s q Hreq Ho
                  |who body Hreq Hid Hv Hvalid Hslug Ho
                  |who body q Hreq Hauth Hv Ho
                  |who q Hreq Ho
                  |who q Hreq Hv Ho]; subst.

(** X1.  No request changes the author, the slug or the creation time of
    a stored post: a new title leaves the slug as it was. *)
Theorem stored_identity_fixed slugify text_search env (st : gmap N Post) r id
  p p' :
  st !! id = Some p →
  (handle slugify text_search env st r).2 !! id = Some p' →
  author p' = author p ∧ slug p' = slug p ∧ createdAt p' = createdAt p.
Proof.
  intros Hp Hp'.
  pose proof (handle_effect slugify text_search env st r id) as He.
  rewrite Hp, Hp' in He. effect_cases He; done.
Qed.

(** X2.  The title, content, excerpt, tags, privacy, cover image and
    status of a stored post change only through an update request for that
    post made by its author. *)
Theorem edited_only_by_author slugify text_search env (st : gmap N Post) r id
  p p' :
  st !! id = Some p →
  (handle slugify text_search env st r).2 !! id = Some p' →
  editorial p' ≠ editorial p →
  ∃ user b, r = UpdatePost user id b ∧ user_id user = author p.
Proof.
  intros Hp Hp' Hed.
  pose proof (handle_effect slugify text_search env st r id) as He.
  rewrite Hp, Hp' in He. effect_cases He; try done.
  by eexists _, _.
Qed.

Lemma elem_of_toggled_likes_other (u v : N) (l : list N) :
  v ≠ u → v ∈ toggled_likes u l ↔ v ∈ l.
Proof.
  intros Hne. unfold toggled_likes. case_bool_decide.
  - rewrite list_elem_of_filter. tauto.
  - rewrite elem_of_app, list_elem_of_singleton. tauto.
Qed.

(** X3.  The [likes] of a stored post change only through a toggle request
    for that post, and then only in the caller's own membership: every
    other user is in the list after the request exactly when it was
    before. *)
Theorem likes_changed_by_own_toggle slugify text_search env (st : gmap N Post)
  r id p p' :
  st !! id = Some p →
  (handle slugify text_search env st r).2 !! id = Some p' →
  likes p' = likes p
  ∨ ∃ user, r = ToggleLike user id
            ∧ ∀ v, v ≠ user_id user → v ∈ likes p' ↔ v ∈ likes p.
Proof.
  intros Hp Hp'.
  pose proof (handle_effect slugify text_search env st r id) as He.
  rewrite Hp, Hp' in He. effect_cases He; try (by left).
  right. eexists. split; [done|]. intros v Hne. simpl.
  by apply elem_of_toggled_likes_other.
Qed.

Lemma set_views_changes p : set_views (views p + 1) p ≠ p.
Proof. destruct p. intros [= E]. lia. Qed.

(** X4.  The [views] of a stored post never go down: a request leaves them
    as they are, or it is a read by slug of that public post by someone
    who is not its author, which adds one. *)
Theorem views_only_grow slugify text_search env (st : gmap N Post) r id p p' :
  st !! id = Some p →
  (handle slugify text_search env st r).2 !! id = Some p' →
  views p' = views p
  ∨ (views p' = (views p + 1)%N
     ∧ ∃ user, r = GetPostBySlug user (slug p)
               ∧ privacy p = "public" ∧ ¬ is_author user p).
Proof.
  intros Hp Hp'.
  pose proof (handle_effect slugify text_search env st r id) as He.
  rewrite Hp, Hp' in He. effect_cases He; try (by left).
  right. split; [done|]. exists who. revert Hp'. simpl.
  assert (Hsame : st !! id ≠ Some (set_views (views p + 1) p)).
  { rewrite Hp. intros [= E]. by destruct (set_views_changes p). }
  unfold get_post_by_slug. destruct (String.eqb s ""); [done|].
  destruct (findOne_slug st s) as [[j x]|] eqn:Hfind; [|done].
  destruct (findOne_slug_Some _ _ _ _ Hfind) as [Hx Hs].
  destruct (String.eqb (privacy x) "private" && not_author who x); [done|].
  destruct (String.eqb (privacy x) "public" && not_author who x) eqn:Hinc;
    [|done].
  simpl. destruct (decide (j = id)) as [->|Hne].
  - intros _. assert (x = p) as -> by congruence.
    apply andb_true_iff in Hinc as [Hpub Hna].
    apply String.eqb_eq in Hpub. apply not_author_true in Hna.
    by rewrite Hs.
  - by rewrite lookup_alter_ne.
Qed.

(** X5.  A stored post goes away only through a delete request for it made
    by its author or by an admin. *)
Theorem removed_only_by_delete slugify text_search env (st : gmap N Post) r id
  p :
  st !! id = Some p →
  (handle slugify text_search env st r).2 !! id = None →
  ∃ user, r = DeletePost user id
          ∧ (user_id user = author p ∨ role user = "admin").
Proof.
  intros Hp Hgone.
  pose proof (handle_effect slugify text_search env st r id) as He.
  rewrite Hp, Hgone in He. effect_cases He.
  exists who. split; [done|]. revert Hgone. simpl. unfold delete_post.
  rewrite Hp. destruct (negb _ && negb _) eqn:Hden; simpl; [by rewrite Hp|].
  intros _. apply andb_false_iff in Hden as [H|H]; apply negb_false_iff in H.
  - left. apply N.eqb_eq in H. done.
  - right. by apply String.eqb_eq.
Qed.

(** X6.  A post becomes featured only by the request of an admin: a post
    that is featured after a request was featured before it, or the caller
    has the admin role. *)
Theorem featured_only_by_admin slugify text_search env (st : gmap N Post) r id
  p' :
  (handle slugify text_search env st r).2 !! id = Some p' →
  featured p' = true →
  (∃ p, st !! id = Some p ∧ featured p = true)
  ∨ (∃ user, caller r = Some user ∧ role user = "admin").
Proof.
  intros Hp' Hf.
  pose proof (handle_effect slugify text_search env st r id) as He.
  rewrite Hp' in He. effect_cases He.
  - left. by exists p'.
  - left. by exists q.
  - right. exists who. split; [done|]. revert Hf.
    rewrite pre_save_new. cbv zeta.
    destruct (JS.falsy _); simpl; destruct (body_featured body) as [[]|];
      try done; apply String.eqb_eq.
  - revert Hf. simpl.
    destruct (String.eqb (role who) "admin") eqn:Hrole; simpl.
    + intros _. right. exists who. split; [done|]. by apply String.eqb_eq.
    + intros Hf. left. by exists q.
  - left. by exists q.
Qed.

(** X7.  A request that is not answered 200 or 201 leaves the store as it
    was: a validation failure, a 403, a 404 and a server error write
    nothing. *)
Theorem refused_request_writes_nothing slugify text_search env
  (st : gmap N Post) r resp st' :
  handle slugify text_search env st r = (resp, st') →
  res_status resp ≠ 200%N →
  res_status resp ≠ 201%N →
  st' = st.
Proof.
  destruct r as [user q|user i|user s|user b|user i b|user i|user i|user i];
    simpl.
  - by intros [= _ <-].
  - by intros [= _ <-].
  - unfold get_post_by_slug. destruct (String.eqb s ""); [by intros [= _ <-]|].
    destruct (findOne_slug st s) as [[j x]|]; [|by intros [= _ <-]].
    destruct (_ && _); [by intros [= _ <-]|].
    destruct (_ && _); intros [= <- <-]; done.
  - unfold create_post. destruct (validate_create _); [|by intros [= _ <-]].
    destruct (findOne_slug st _); [by intros [= _ <-]|].
    destruct (save _ _ _ _) as [[? ?]|]; intros [= <- <-]; done.
  - unfold update_post. destruct (validate_update _); [|by intros [= _ <-]].
    destruct (st !! i); [|by intros [= _ <-]].
    destruct (negb _); [by intros [= _ <-]|].
    destruct (findByIdAndUpdate _ _ _) as [[? [?|]]|]; intros [= <- <-]; done.
  - unfold delete_post. destruct (st !! i); [|by intros [= _ <-]].
    destruct (_ && _); intros [= <- <-]; done.
  - by intros [= _ <-].
  - unfold toggle_like. destruct (st !! i); [|by intros [= _ <-]].
    destruct (_ && _); [by intros [= _ <-]|].
    destruct (save _ _ _ _) as [[? ?]|]; intros [= <- <-]; done.
Qed.

Lemma elem_of_select_no_content (l : list (N * Post)) id p' :
  (id, p') ∈ select_no_content l → ∃ p, (id, p) ∈ l ∧ p' = set_content "" p.
Proof.
  unfold select_no_content. intros ([j p] & [= -> ->] & Hin)%list_elem_of_fmap.
  by exists p.
Qed.

(** The text of an id denotes that id: the cast undoes [toString]. *)
Lemma toLowerCase_append (a b : string) :
  JS.toLowerCase (a +:+ b) = JS.toLowerCase a +:+ JS.toLowerCase b.
Proof.
  unfold JS.toLowerCase. induction a as [|c a IH]; simpl; [done|].
  by rewrite IH.
Qed.

Lemma toLowerCase_zeros k : JS.toLowerCase (ObjectId.zeros k) = ObjectId.zeros k.
Proof.
  unfold JS.toLowerCase. induction k as [|k IH]; simpl; [done|].
  by rewrite IH.
Qed.

Lemma toLowerCase_hex_digits d :
  JS.toLowerCase (HexadecimalString.NilEmpty.string_of_uint d)
  = HexadecimalString.NilEmpty.string_of_uint d.
Proof.
  unfold JS.toLowerCase. induction d; simpl; [done|by f_equal..].
Qed.

Fixpoint pad_uint (k : nat) (d : Hexadecimal.uint) : Hexadecimal.uint :=
  match k with
  | O => d
  | S k' => Hexadecimal.D0 (pad_uint k' d)
  end.

Lemma uint_of_string_zeros k (s : string) d :
  HexadecimalString.NilEmpty.uint_of_string s = Some d →
  HexadecimalString.NilEmpty.uint_of_string (ObjectId.zeros k +:+ s)
  = Some (pad_uint k d).
Proof.
  intros Hs. induction k as [|k IH]; simpl; [done|]. by rewrite IH.
Qed.

Lemma of_hex_uint_pad k d : N.of_hex_uint (pad_uint k d) = N.of_hex_uint d.
Proof. induction k as [|k IH]; simpl; done. Qed.

Lemma cast_toString (n a : N) :
  ObjectId.cast (ObjectId.toString n) = Some a → a = n.
Proof.
  unfold ObjectId.cast, ObjectId.toString. destruct (_ && _); [|done].
  rewrite toLowerCase_append, toLowerCase_zeros, toLowerCase_hex_digits.
  rewrite (uint_of_string_zeros _ _ (N.to_hex_uint n))
    by apply HexadecimalString.NilEmpty.usu.
  simpl. rewrite of_hex_uint_pad, HexadecimalN.Unsigned.of_to.
  by intros [= <-].
Qed.

Lemma matches_user_filter text_search user userId a p :
  matches text_search (user_filter user userId a) p = true
  ↔ author p = a ∧ status p = "published"
    ∧ (privacy p = "public"
       ∨ ∃ u, user = Some u ∧ ObjectId.toString (user_id u) = userId).
Proof.
  unfold matches, user_filter. simpl.
  rewrite !andb_true_iff, String.eqb_eq, N.eqb_eq.
  destruct user as [u|]; simpl.
  - destruct (String.eqb_spec (ObjectId.toString (user_id u)) userId)
      as [Hu|Hu]; simpl.
    + split; [|tauto].
      intros _H. repeat split; try tauto. right. by exists u.
    + rewrite String.eqb_eq. split; [tauto|].
      intros (? & ? & [?|(u' & [= <-] & ?)]); tauto.
  - rewrite String.eqb_eq. split; [tauto|].
    intros (? & ? & [?|(u' & ? & _)]); [tauto|done].
Qed.

(** X8.  No response shows a private post to anyone but its author: a
    post that a response carries, alone or in a list, is not private, or
    the caller is its author.  This holds for the eight routes and every
    store. *)
Theorem private_post_never_disclosed slugify text_search env (st : gmap N Post)
  r id p :
  (∃ m, res_json (handle slugify text_search env st r).1 = OnePost m id p)
  ∨ (id, p) ∈ response_posts (handle slugify text_search env st r).1 →
  privacy p = "private" →
  ∃ user, caller r = Some user ∧ user_id user = author p.
Proof.
  intros Hshown Hpriv.
  destruct r as [user q|user i|user s|user b|user i b|user i|user i|user i];
    simpl in *.
  - destruct Hshown as [[m Hm]|Hin].
    { revert Hm. unfold get_posts. destruct (validate_list q); [|done].
      by destruct (find _ _ _). }
    revert Hin. unfold get_posts, response_posts.
    destruct (validate_list q); [|by intros ?%not_elem_of_nil].
    destruct (find text_search (list_filter user q) st) as [found|] eqn:Hfind;
      [|by intros ?%not_elem_of_nil].
    simpl. intros (x & Hin & ->)%elem_of_select_no_content.
    apply subseteq_take, subseteq_drop in Hin.
    rewrite sort_createdAt_desc_perm in Hin.
    apply (find_list_filter _ _ _ _ _ _ _ Hfind) in Hin
      as [_ (_ & [Hpub|[_ Ha]] & _)].
    + simpl in Hpriv. congruence.
    + destruct Ha as (u & -> & Hu). by exists u.
  - destruct Hshown as [[m Hm]|Hin].
    + revert Hm. unfold get_post_by_id. destruct (st !! i) as [x|]; [|done].
      destruct (negb _) eqn:Ha; [done|]. intros [= _ _ ->].
      apply negb_false_iff, N.eqb_eq in Ha. by exists user.
    + revert Hin. unfold get_post_by_id, response_posts.
      destruct (st !! i); [|by intros ?%not_elem_of_nil].
      destruct (negb _); by intros ?%not_elem_of_nil.
  - destruct Hshown as [[m Hm]|Hin].
    + revert Hm. unfold get_post_by_slug. destruct (String.eqb s ""); [done|].
      destruct (findOne_slug st s) as [[j x]|]; [|done].
      destruct (String.eqb (privacy x) "private" && not_author user x) eqn:Hden;
        [done|].
      destruct (String.eqb (privacy x) "public" && not_author user x) eqn:Hinc.
      * intros [= _ _ <-]. simpl in Hpriv.
        apply andb_true_iff in Hinc as [Hpub _]. apply String.eqb_eq in Hpub.
        congruence.
      * intros [= _ _ ->]. rewrite Hpriv in Hden. simpl in Hden.
        by apply not_author_false in Hden.
    + revert Hin. unfold get_post_by_slug, response_posts.
      destruct (String.eqb s ""); [by intros ?%not_elem_of_nil|].
      destruct (findOne_slug st s) as [[j x]|]; [|by intros ?%not_elem_of_nil].
      destruct (_ && _); [by intros ?%not_elem_of_nil|].
      destruct (_ && _); by intros ?%not_elem_of_nil.
  - destruct Hshown as [[m Hm]|Hin].
    + revert Hm. unfold create_post. destruct (validate_create _); [|done].
      destruct (findOne_slug st _); [done|].
      unfold save. destruct (schema_valid _); [|done].
      change (isNew (new_Post _ _ _ _)) with true. cbv iota.
      destruct (_ || _); [done|]. intros [= _ _ <-].
      exists user. split; [done|]. rewrite pre_save_new. cbv zeta.
      by destruct (JS.falsy _).
    + revert Hin. unfold create_post, response_posts.
      destruct (validate_create _); [|by intros ?%not_elem_of_nil].
      destruct (findOne_slug st _); [by intros ?%not_elem_of_nil|].
      destruct (save _ _ _ _) as [[? ?]|]; by intros ?%not_elem_of_nil.
  - destruct Hshown as [[m Hm]|Hin].
    + revert Hm. unfold update_post. destruct (validate_update _); [|done].
      destruct (st !! i) as [x|] eqn:Hx; [|done].
      destruct (negb _) eqn:Ha; [done|].
      apply negb_false_iff, N.eqb_eq in Ha.
      unfold findByIdAndUpdate. destruct (update_valid _); [|done].
      rewrite Hx. simpl. intros [= _ _ <-]. by exists user.
    + revert Hin. unfold update_post, response_posts.
      destruct (validate_update _); [|by intros ?%not_elem_of_nil].
      destruct (st !! i); [|by intros ?%not_elem_of_nil].
      destruct (negb _); [by intros ?%not_elem_of_nil|].
      destruct (findByIdAndUpdate _ _ _) as [[? [?|]]|];
        by intros ?%not_elem_of_nil.
  - exfalso. revert Hshown. unfold delete_post, response_posts.
    destruct (st !! i); [|by intros [[? ?]|?%not_elem_of_nil]].
    destruct (_ && _); by intros [[? ?]|?%not_elem_of_nil].
  - destruct Hshown as [[m Hm]|Hin].
    { revert Hm. unfold get_user_posts.
      destruct (validate_user_posts i); [|done].
      destruct (ObjectId.cast i) as [a|]; [|done].
      by destruct (find text_search (user_filter user i a) st). }
    revert Hin. unfold get_user_posts, response_posts.
    destruct (validate_user_posts i); [|by intros ?%not_elem_of_nil].
    destruct (ObjectId.cast i) as [a|] eqn:Hcast;
      [|by intros ?%not_elem_of_nil].
    destruct (find text_search (user_filter user i a) st) as [found|] eqn:Hfind;
      [|by intros ?%not_elem_of_nil].
    simpl. intros (x & Hin & ->)%elem_of_select_no_content.
    rewrite sort_createdAt_desc_perm in Hin.
    revert Hfind. unfold find. destruct (refused _ _); [done|]. intros [= <-].
    apply list_elem_of_filter in Hin as [Hm _]. simpl in Hm.
    apply matches_user_filter in Hm as (Hauth & _ & [Hpub|(u & -> & Hu)]).
    + simpl in Hpriv. congruence.
    + exists u. split; [done|]. simpl. rewrite <- Hu in Hcast.
      apply cast_toString in Hcast. congruence.
  - exfalso. revert Hshown. unfold toggle_like, response_posts.
    destruct (st !! i); [|by intros [[? ?]|?%not_elem_of_nil]].
    destruct (_ && _); [by intros [[? ?]|?%not_elem_of_nil]|].
    destruct (save _ _ _ _) as [[? ?]|]; by intros [[? ?]|?%not_elem_of_nil].
Qed.

(** ** What every stored post satisfies *)

Lemma schema_valid_spec p :
  schema_valid p = true →
  title p ≠ "" ∧ String.length (title p) ≤ 200 ∧ content p ≠ ""
  ∧ (∀ e, excerpt p = Some e → String.length e ≤ 300)
  ∧ slug p ≠ ""
  ∧ (∀ t, t ∈ tags p → t = "technical" ∨ t = "personal")
  ∧ 1 ≤ length (tags p) ≤ 2
  ∧ (privacy p = "public" ∨ privacy p = "private")
  ∧ (status p = "draft" ∨ status p = "published").
Proof.
  unfold schema_valid, in_enum. rewrite !andb_true_iff, !negb_true_iff.
  rewrite !String.eqb_neq, !bool_decide_eq_true, !Nat.leb_le, Nat.ltb_lt.
  rewrite forallb_forall.
  intros (((((((((Ht & Htl) & Hc) & He) & Hs) & Htags) & Hn) & Hm) & Hpr) & Hst).
  repeat split; try done; try lia.
  - intros e Hex. rewrite Hex in He. by apply Nat.leb_le.
  - intros t Ht'. apply list_elem_of_In, Htags, bool_decide_eq_true in Ht'.
    unfold tag_enum in Ht'. rewrite !elem_of_cons, elem_of_nil in Ht'. tauto.
  - unfold privacy_enum in Hpr. rewrite !elem_of_cons, elem_of_nil in Hpr. tauto.
  - unfold status_enum in Hst. rewrite !elem_of_cons, elem_of_nil in Hst. tauto.
Qed.

(** X9.  In a store built by requests handled one after the other, no two
    posts have the same slug: the documents stored under two different ids
    have different slugs. *)
Theorem slug_is_unique slugify text_search (st : gmap N Post) i j p q :
  reachable slugify text_search st →
  st !! i = Some p →
  st !! j = Some q →
  i ≠ j →
  slug p ≠ slug q.
Proof.
  intros Hreach Hp Hq Hne Hs. apply Hne.
  by eapply reachable_slug_unique.
Qed.

(** X10.  In a store built by requests handled one after the other, every
    post has one or two tags, each of them technical or personal, a privacy
    that is public or private, a status that is draft or published, a title
    of 1 to 200 characters, a content and a slug that are not empty, and an
    excerpt, if any, of at most 300 characters. *)
Theorem stored_post_passes_schema slugify text_search (st : gmap N Post) id p :
  reachable slugify text_search st →
  st !! id = Some p →
  title p ≠ "" ∧ String.length (title p) ≤ 200 ∧ content p ≠ ""
  ∧ (∀ e, excerpt p = Some e → String.length e ≤ 300)
  ∧ slug p ≠ ""
  ∧ (∀ t, t ∈ tags p → t = "technical" ∨ t = "personal")
  ∧ 1 ≤ length (tags p) ≤ 2
  ∧ (privacy p = "public" ∨ privacy p = "private")
  ∧ (status p = "draft" ∨ status p = "published").
Proof.
  intros Hreach Hp. apply schema_valid_spec.
  by destruct (reachable_documents _ _ _ _ _ Hreach Hp).
Qed.

(** X11.  In a store built by requests handled one after the other, no
    post holds a user twice in [likes]. *)
Theorem likes_hold_a_user_once slugify text_search (st : gmap N Post) id p :
  reachable slugify text_search st →
  st !! id = Some p →
  NoDup (likes p).
Proof.
  intros Hreach Hp. by destruct (reachable_documents _ _ _ _ _ Hreach Hp).
Qed.

(** ** The posts of one user *)

Lemma select_no_content_ids (l : list (N * Post)) : (select_no_content l).*1 = l.*1.
Proof.
  unfold select_no_content. induction l as [|[i p] l IH]; [done|].
  csimpl. by f_equal.
Qed.

Lemma NoDup_find_ids text_search f (st : gmap N Post) found :
  find text_search f st = Some found → NoDup found.*1.
Proof.
  unfold find. destruct (refused _ _); [done|]. intros [= <-].
  eapply sublist_NoDup; [apply (NoDup_fst_map_to_list st)|].
  apply fmap_sublist, sublist_filter.
Qed.

Lemma select_no_content_sorted (l : list (N * Post)) :
  Sorted newer_first l → Sorted newer_first (select_no_content l).
Proof. unfold select_no_content. by apply Sorted_fmap. Qed.

(** What a user-posts request that is answered 200 found. *)
Lemma get_user_posts_found text_search env (st : gmap N Post) user userId
  posts pg :
  get_user_posts text_search env st user userId
  = mkResponse 200 (Posts posts pg) →
  ∃ a,
    ObjectId.cast userId = Some a
    ∧ ∀ id p', (id, p') ∈ posts
        ↔ ∃ p, st !! id = Some p ∧ p' = set_content "" p
               ∧ author p = a ∧ status p = "published"
               ∧ (privacy p = "public"
                  ∨ ∃ u, user = Some u
                         ∧ ObjectId.toString (user_id u) = userId).
Proof.
  unfold get_user_posts. destruct (validate_user_posts userId); [|done].
  destruct (ObjectId.cast userId) as [a|]; [|done].
  destruct (find text_search (user_filter user userId a) st) as [found|]
    eqn:Hfind; [|done].
  intros [= <- <-]. exists a. split; [done|].
  intros id p'. unfold select_no_content. rewrite list_elem_of_fmap. split.
  - intros ([j p] & [= -> ->] & Hin). exists p.
    rewrite sort_createdAt_desc_perm in Hin. revert Hfind. unfold find.
    destruct (refused _ _); [done|]. intros [= <-].
    apply list_elem_of_filter in Hin as [Hm Hin]. simpl in Hm.
    apply elem_of_map_to_list in Hin. apply matches_user_filter in Hm. tauto.
  - intros (p & Hp & -> & Hrest). exists (id, p). split; [done|].
    rewrite sort_createdAt_desc_perm. revert Hfind. unfold find.
    destruct (refused _ _); [done|]. intros [= <-].
    apply list_elem_of_filter. split; [|by apply elem_of_map_to_list].
    simpl. by apply matches_user_filter.
Qed.

(** The comparison of the route is one of texts: Dana gets her private
    note when she writes her id as the server prints it, and an empty list
    when she writes it in upper case, which the chain and the store
    accept as the same id. *)
Lemma user_posts_upper_case_id :
  ObjectId.toString (user_id Sample.dana) = "0000000000000000000000ab"
  ∧ returned_ids
      (get_user_posts Sample.text_search Sample.first Sample.dana_note
         (Some Sample.dana) "0000000000000000000000ab")
    = [1%N]
  ∧ ObjectId.cast "0000000000000000000000AB" = Some (user_id Sample.dana)
  ∧ get_user_posts Sample.text_search Sample.first Sample.dana_note
      (Some Sample.dana) "0000000000000000000000AB"
    = mkResponse 200 (Posts [] None).
Proof. vm_compute. done. Qed.

(** X12.  The posts of a user are listed in full: the response holds, once
    each, newest first and without content, exactly the stored posts that
    are published, whose author is the id that the path parameter denotes
    and that are public or, when the text of the caller's id is the path
    parameter character by character, private.  The author's own drafts
    are not in it, and neither are her private posts when she writes her
    id in upper case. *)
Theorem user_posts_listed text_search env (st : gmap N Post) user userId
  posts pg :
  get_user_posts text_search env st user userId
  = mkResponse 200 (Posts posts pg) →
  ∃ a,
    ObjectId.cast userId = Some a
    ∧ (∀ id p', (id, p') ∈ posts
         ↔ ∃ p, st !! id = Some p ∧ p' = set_content "" p
                ∧ author p = a ∧ status p = "published"
                ∧ (privacy p = "public"
                   ∨ ∃ u, user = Some u
                          ∧ ObjectId.toString (user_id u) = userId))
    ∧ NoDup posts.*1 ∧ Sorted newer_first posts.
Proof.
  intros Hr. destruct (get_user_posts_found _ _ _ _ _ _ _ Hr) as (a & Ha & Hin).
  exists a. split; [done|]. split; [done|].
  revert Hr. unfold get_user_posts.
  destruct (validate_user_posts userId); [|done].
  destruct (ObjectId.cast userId) as [a'|]; [|done].
  destruct (find text_search (user_filter user userId a') st) as [found|]
    eqn:Hfind; [|done].
  intros [= <- <-]. split.
  - rewrite select_no_content_ids, sort_createdAt_desc_perm.
    by eapply NoDup_find_ids.
  - apply select_no_content_sorted, sort_createdAt_desc_sorted.
Qed.

Lemma filter_all {A} (P : A → Prop) `{∀ x, Decision (P x)} (l : list A) :
  Forall P l → filter P l = l.
Proof.
  induction 1 as [|x l Hx Hl IH]; [done|].
  by rewrite filter_cons_True, IH.
Qed.

Lemma filter_none {A} (P : A → Prop) `{∀ x, Decision (P x)} (l : list A) :
  Forall (λ x, ¬ P x) l → filter P l = [].
Proof.
  induction 1 as [|x l Hx Hl IH]; [done|].
  by rewrite filter_cons_False.
Qed.

(** X13.  The dashboard counts no draft: over the posts that the page
    fetches for its user, the number of drafts is 0 and the number of
    published posts is the number of posts, whatever the user has stored. *)
Theorem dashboard_counts_no_draft text_search env (st : gmap N Post) user userId :
  stats_drafts
    (dashboard_stats
       (response_posts (get_user_posts text_search env st user userId))) = 0
  ∧ stats_published
      (dashboard_stats
         (response_posts (get_user_posts text_search env st user userId)))
    = stats_total
        (dashboard_stats
           (response_posts (get_user_posts text_search env st user userId))).
Proof.
  destruct (get_user_posts text_search env st user userId) as [code json] eqn:Hr.
  assert (Hpub : Forall (λ kp : N * Post, status kp.2 = "published")
                   (response_posts (mkResponse code json))).
  { destruct json as [| |? ? ?|posts pg|? ? ?]; try by constructor.
    assert (code = 200%N) as ->.
    { revert Hr. unfold get_user_posts.
      destruct (validate_user_posts userId); [|by intros [= <-]].
      destruct (ObjectId.cast userId); [|by intros [= <-]].
      destruct (find _ _ _); by intros [= <-]. }
    apply Forall_forall. intros [id p'] Hin.
    destruct (get_user_posts_found _ _ _ _ _ _ _ Hr) as (a & _ & Hfound).
    destruct (proj1 (Hfound id p') Hin) as (p & _ & Hp' & _ & Hst & _).
    by rewrite Hp'. }
  unfold dashboard_stats. simpl. split.
  - rewrite filter_none; [done|].
    eapply Forall_impl; [exact Hpub|]. intros kp Hst. simpl in *.
    rewrite Hst. done.
  - by rewrite filter_all.
Qed.

(** ** Walking the pages of a list *)

Lemma concat_pages {A} (l : nat) (xs : list A) n :
  concat ((λ k, take l (drop (k * l) xs)) <$> seq 0 n) = take (n * l) xs.
Proof.
  induction n as [|n IH]; [done|].
  rewrite seq_S, fmap_app, concat_app, IH. simpl.
  rewrite app_nil_r, take_take_drop. f_equal. lia.
Qed.

Lemma concat_fmap_each {A B} (f : A → B) (g : nat → list A) (ks : list nat) :
  concat ((λ k, f <$> g k) <$> ks) = f <$> concat (g <$> ks).
Proof.
  induction ks as [|k ks IH]; [done|]. csimpl. by rewrite fmap_app, IH.
Qed.

Lemma ceil_div_covers total l : 1 ≤ l → total ≤ JS.ceil_div total l * l.
Proof.
  intros Hl. unfold JS.ceil_div.
  pose proof (Nat.div_mod_eq (total + (l - 1)) l).
  pose proof (Nat.mod_upper_bound (total + (l - 1)) l). nia.
Qed.

Lemma validate_list_with_page q k :
  validate_list q = [] → validate_list (with_page q (S k)) = [].
Proof.
  unfold validate_list, with_page.
  intros [Ht [Hp Hl]%app_eq_nil]%app_eq_nil. cbn [query_tags query_page query_limit].
  rewrite Ht, Hl, app_nil_r. simpl. apply check_nil, Z.leb_le. lia.
Qed.

Lemma limit_positive q : validate_list q = [] → 1 ≤ int_or (query_limit q) 10.
Proof.
  intros Hq. destruct (validate_list_parts q Hq) as (_ & _ & Hl).
  unfold int_or. destruct (query_limit q) as [m|]; [|lia].
  destruct (Hl m eq_refl). destruct (Z.eqb_spec m 0); lia.
Qed.

(** Documents of different times are sorted in one way, whatever the order
    among ties. *)
Lemma insert_desc_untied n1 n2 x (l : list (N * Post)) :
  createdAt x.2 ∉ (λ kp : N * Post, createdAt kp.2) <$> l →
  insert_desc n1 x l = insert_desc n2 x l.
Proof.
  induction l as [|y l IH]; [done|]. csimpl.
  intros [Hy Hl]%not_elem_of_cons. unfold comes_first.
  assert ((createdAt y.2 =? createdAt x.2)%N = false) as ->
    by (apply N.eqb_neq; congruence).
  simpl. by rewrite IH.
Qed.

Lemma sort_createdAt_desc_untied n1 n2 (l : list (N * Post)) :
  NoDup ((λ kp : N * Post, createdAt kp.2) <$> l) →
  sort_createdAt_desc n1 l = sort_createdAt_desc n2 l.
Proof.
  induction l as [|x l IH]; [done|]. csimpl.
  intros [Hx Hl]%NoDup_cons. rewrite (IH Hl).
  apply insert_desc_untied. by rewrite sort_createdAt_desc_perm.
Qed.

(** Why the times must differ: with two posts of the same millisecond,
    the first page of one request and the second page of another, for
    which the store orders the tie the other way, hold the same post. *)
Lemma tied_pages_repeat :
  createdAt <$> Sample.same_time !! 1%N = createdAt <$> Sample.same_time !! 2%N
  ∧ returned_ids
      (get_posts Sample.text_search Sample.first Sample.same_time None
         (with_page Sample.one_per_page 1))
    = [1%N]
  ∧ returned_ids
      (get_posts Sample.text_search Sample.reversed Sample.same_time None
         (with_page Sample.one_per_page 2))
    = [1%N].
Proof. vm_compute. done. Qed.

(** A store whose documents all have different times. *)
Lemma untied_times (st : gmap N Post) :
  NoDup ((λ kp : N * Post, createdAt kp.2) <$> map_to_list st) →
  ∀ i j p p',
    st !! i = Some p → st !! j = Some p' → createdAt p = createdAt p' → i = j.
Proof.
  intros Hnd i j p p' Hp Hp' Ht.
  apply elem_of_map_to_list, list_elem_of_lookup in Hp as [a Ha].
  apply elem_of_map_to_list, list_elem_of_lookup in Hp' as [b Hb].
  assert (a = b) as ->.
  { apply (NoDup_lookup _ a b (createdAt p) Hnd).
    - by rewrite list_lookup_fmap, Ha.
    - by rewrite list_lookup_fmap, Hb, Ht. }
  congruence.
Qed.

(** X14.  The pages of a list add up to the whole list: for a list request
    that is answered 200 on a store where no two posts that the caller may
    list were created at the same time, the posts of the pages 1 to [pages]
    of the same query, each page asked in a request of its own, are, one
    after the other, the stored posts the caller may list, each once and
    newest first.  Among posts of the same time the store promises no
    order. *)
Theorem list_pages_cover text_search env (envs : nat → Env) (st : gmap N Post)
  user q posts pgn :
  get_posts text_search env st user q
  = mkResponse 200 (Posts posts (Some pgn)) →
  (∀ i j p p',
     st !! i = Some p → st !! j = Some p' →
     listable text_search user q p → listable text_search user q p' →
     createdAt p = createdAt p' → i = j) →
  ∃ all,
    (∀ id p, (id, p) ∈ all
             ↔ st !! id = Some p ∧ listable text_search user q p)
    ∧ NoDup all.*1 ∧ Sorted newer_first all
    ∧ concat
        ((λ k,
            response_posts
              (get_posts text_search (envs k) st user (with_page q k)))
           <$> seq 1 (pages pgn))
      = select_no_content all.
Proof.
  unfold get_posts at 1. destruct (validate_list q) eqn:Hq; [|done].
  destruct (find text_search (list_filter user q) st) as [found|] eqn:Hfind;
    [|done].
  intros [= _ <-] Htimes. simpl.
  assert (Hfound : ∀ id p, (id, p) ∈ found
                           ↔ st !! id = Some p ∧ listable text_search user q p)
    by (intros id p; by apply find_list_filter).
  assert (Huntied : NoDup ((λ kp : N * Post, createdAt kp.2) <$> found)).
  { apply NoDup_fmap_2_strong; [|by eapply NoDup_find].
    intros [i p] [j p'] [Hp Hl]%Hfound [Hp' Hl']%Hfound Ht. simpl in Ht.
    assert (i = j) as -> by by eapply Htimes. congruence. }
  exists (sort_createdAt_desc (natural env) found). split; [|split; [|split]].
  - intros id p. by rewrite sort_createdAt_desc_perm.
  - rewrite sort_createdAt_desc_perm. by eapply NoDup_find_ids.
  - apply sort_createdAt_desc_sorted.
  - set (l := int_or (query_limit q) 10).
    rewrite <- fmap_S_seq, <- list_fmap_compose.
    erewrite (list_fmap_ext _
                (λ k, select_no_content
                        (take l
                           (drop (k * l)
                              (sort_createdAt_desc (natural env) found))))).
    + unfold select_no_content.
      rewrite (concat_fmap_each _
                 (λ k, take l
                         (drop (k * l)
                            (sort_createdAt_desc (natural env) found)))).
      rewrite concat_pages, take_ge; [done|].
      rewrite (Permutation_length (sort_createdAt_desc_perm _ found)).
      apply ceil_div_covers, limit_positive. done.
    + intros i k Hk. simpl. unfold get_posts, response_posts.
      rewrite validate_list_with_page by done.
      replace (list_filter user (with_page q (S k))) with (list_filter user q)
        by done.
      rewrite Hfind. simpl. rewrite Nat2Z.id.
      replace (S k - 1) with k by lia.
      by rewrite (sort_createdAt_desc_untied (natural (envs (S k)))
                    (natural env)).
Qed.

(** ** Create, again *)

Lemma tags_errors_nil (ts : list string) :
  tags_errors ts = [] ↔ ∀ t, t ∈ ts → t = "technical" ∨ t = "personal".
Proof.
  unfold tags_errors. induction ts as [|x ts IH]; simpl.
  - split; [by intros _ t ?%not_elem_of_nil|done].
  - assert (Hx : check (in_enum tag_enum x) "Tags must be technical or personal"
                 = [] ↔ x = "technical" ∨ x = "personal").
    { rewrite check_nil. unfold in_enum, tag_enum.
      rewrite bool_decide_eq_true, !elem_of_cons, elem_of_nil. tauto. }
    split.
    + intros [H1 H2]%app_nil t [->|Hin]%elem_of_cons;
        [by apply Hx|by apply IH].
    + intros H. apply app_nil. split.
      * apply Hx, H. by left.
      * apply IH. intros t Ht. apply H. by right.
Qed.

Lemma validate_create_ok b :
  validate_create (sanitize b) = [] ↔ create_body_ok b.
Proof.
  unfold validate_create, sanitize, create_body_ok, tags_length_ok, in_enum.
  cbn [body_title body_content body_tags body_privacy body_excerpt].
  rewrite !app_nil, !check_nil, tags_errors_nil.
  rewrite !negb_true_iff, !String.eqb_neq, bool_decide_eq_true, Nat.leb_le.
  unfold privacy_enum. rewrite !elem_of_cons, elem_of_nil.
  split.
  - intros (H1 & H2 & H3 & H4 & H5 & H6 & H7).
    destruct (body_title b) as [t|]; [|done].
    destruct (body_content b) as [c|]; [|done].
    destruct (body_tags b) as [ts|]; [|done].
    destruct (body_privacy b) as [v|]; [|by destruct H6 as [?|[?|[]]]].
    change ((1 <=? length ts) && (length ts <=? 2) = true) in H4.
    change (JS.trim t ≠ "") in H1.
    change (String.length (JS.trim t) ≤ 200) in H2.
    change (c ≠ "") in H3.
    change (∀ x, x ∈ ts → x = "technical" ∨ x = "personal") in H5.
    change (v = "public" ∨ v = "private" ∨ False) in H6.
    apply andb_true_iff in H4 as [H4 H4']. apply Nat.leb_le in H4, H4'.
    split; [by exists t|]. split; [by exists c|]. split; [by exists ts|].
    split; [exists v; tauto|].
    intros e He. rewrite He in H7. by apply check_nil, Nat.leb_le in H7.
  - intros ((t & -> & ? & ?) & (c & -> & ?) & (ts & -> & [? ?] & ?)
            & (v & -> & ?) & He).
    repeat split; try done; try tauto.
    + apply andb_true_iff. by rewrite !Nat.leb_le.
    + destruct (body_excerpt b) as [e|]; [|done].
      apply check_nil, Nat.leb_le, He. done.
Qed.

(** X15.  A create request is answered with the list of its validation
    errors, and nothing is stored, exactly when its body is not well
    formed: no title of 1 to 200 characters once trimmed, no content, not
    one or two tags, a tag that is neither technical nor personal, a
    privacy that is neither public nor private, or an excerpt of more than
    300 characters. *)
Theorem create_validates_body slugify env (st : gmap N Post) user b :
  (∃ errors,
     create_post slugify env st user b = (validation_failed errors, st))
  ↔ ¬ create_body_ok b.
Proof.
  rewrite <- validate_create_ok. unfold create_post.
  destruct (validate_create (sanitize b)) as [|e errors] eqn:Hv.
  - split; [|done]. intros [errors Hc] _. revert Hc.
    destruct (findOne_slug st _); [done|].
    destruct (save _ _ _ _) as [[? ?]|]; done.
  - split; [done|]. intros _. by eexists.
Qed.

(** ** The characters of the derived strings *)

Lemma all_chars_append test (a b : string) :
  all_chars test (a +:+ b) = all_chars test a && all_chars test b.
Proof.
  induction a as [|c a IH]; simpl; [done|]. by rewrite IH, andb_assoc.
Qed.

Lemma all_chars_remove bad (s : string) :
  all_chars (λ c, negb (bad c)) (JS.remove_chars bad s) = true.
Proof.
  induction s as [|c s IH]; simpl; [done|].
  destruct (bad c) eqn:Hb; simpl; [done|]. by rewrite Hb.
Qed.

Lemma all_chars_substring test n m (s : string) :
  all_chars test s = true → all_chars test (substring n m s) = true.
Proof.
  revert n m. induction s as [|c s IH]; intros [|n] [|m]; simpl; try done.
  - intros [Hc Hs]%andb_true_iff. rewrite Hc. simpl. by apply IH.
  - intros [_ Hs]%andb_true_iff. by apply IH.
  - intros [_ Hs]%andb_true_iff. by apply IH.
Qed.

Lemma all_chars_trimStart test (s : string) :
  all_chars test s = true → all_chars test (JS.trimStart s) = true.
Proof.
  induction s as [|c s IH]; simpl; [done|].
  intros H. destruct (JS.is_space c); [|done].
  apply andb_true_iff in H as [_ Hs]. by apply IH.
Qed.

Lemma all_chars_trimEnd test (s : string) :
  all_chars test s = true → all_chars test (JS.trimEnd s) = true.
Proof.
  induction s as [|c s IH]; simpl; [done|].
  intros [Hc Hs]%andb_true_iff. specialize (IH Hs).
  destruct (JS.trimEnd s); [destruct (JS.is_space c)|]; simpl in *;
    by rewrite ?Hc.
Qed.

Lemma all_chars_trim test (s : string) :
  all_chars test s = true → all_chars test (JS.trim s) = true.
Proof. intros H. by apply all_chars_trimEnd, all_chars_trimStart. Qed.

Lemma all_chars_replace_runs (kept run out : ascii → bool) rep (s : string) :
  (∀ c, kept c = true → run c = false → out c = true) →
  all_chars out rep = true →
  all_chars kept s = true →
  all_chars out (JS.replace_runs run rep s) = true.
Proof.
  intros Hout Hrep. induction s as [|c s IH]; simpl; [done|].
  intros [Hc Hs]%andb_true_iff. specialize (IH Hs).
  destruct (run c) eqn:Hr.
  - destruct (JS.starts_with run s); [done|].
    by rewrite all_chars_append, Hrep, IH.
  - simpl. by rewrite (Hout c Hc Hr), IH.
Qed.

Lemma slug_char_no_space c :
  negb (negb (slug_char c)) = true → JS.is_space c = false → url_char c = true.
Proof.
  unfold slug_char, JS.is_space, url_char. rewrite negb_involutive.
  generalize (JS.char_code c). intros n.
  repeat match goal with
         | |- context [(?a <=? ?b)%N] => destruct (N.leb_spec a b)
         | |- context [(?a =? ?b)%N] => destruct (N.eqb_spec a b)
         end; simpl; try done; lia.
Qed.

(** The slug the hook derives from a title is made of [a-z], [0-9] and
    hyphens. *)
Lemma title_slug_chars (t : string) : all_chars url_char (title_slug t) = true.
Proof.
  unfold title_slug. apply all_chars_trim.
  apply (all_chars_replace_runs url_char); [done|done|].
  apply (all_chars_replace_runs (λ c, negb (negb (slug_char c))));
    [apply slug_char_no_space|done|].
  apply all_chars_remove.
Qed.

Lemma string_of_uint_chars (d : Decimal.uint) :
  all_chars url_char (NilEmpty.string_of_uint d) = true.
Proof. induction d; simpl; done. Qed.

Lemma string_of_N_chars (n : N) : all_chars url_char (JS.string_of_N n) = true.
Proof.
  unfold JS.string_of_N, NilZero.string_of_uint.
  destruct (N.to_uint n); try apply string_of_uint_chars; done.
Qed.

(** X16.  The slug of a created post is made of the characters [a-z],
    [0-9] and the hyphen, whatever the title: it ends with a hyphen and the
    digits of the creation time. *)
Theorem created_slug_is_url_safe slugify env (st : gmap N Post) user b r st' :
  create_post slugify env st user b = (r, st') →
  res_status r = 201%N →
  ∃ p stem,
    st' !! oid env = Some p
    ∧ slug p = stem +:+ "-" +:+ JS.string_of_N (now env)
    ∧ all_chars url_char (slug p) = true.
Proof.
  intros Hc Hr.
  destruct (create_post_stored_slug _ _ _ _ _ _ _ Hc Hr) as (t & p & _ & Hp & Hs).
  exists p, (title_slug (JS.trim (JS.trim t))). split; [done|]. split; [done|].
  by rewrite Hs, !all_chars_append, title_slug_chars, string_of_N_chars.
Qed.

Lemma remove_chars_none bad (s : string) :
  all_chars (λ c, negb (bad c)) s = true → JS.remove_chars bad s = s.
Proof.
  induction s as [|c s IH]; simpl; [done|].
  intros [Hc Hs]%andb_true_iff. apply negb_true_iff in Hc.
  by rewrite Hc, IH.
Qed.

Lemma substring_0_all n (s : string) :
  String.length s ≤ n → substring 0 n s = s.
Proof.
  revert n. induction s as [|c s IH]; intros [|n]; simpl; try done; try lia.
  intros H. rewrite IH; [done|lia].
Qed.

(** X17.  A created post whose body has no excerpt, or an empty one, gets
    the excerpt of its content: the content without its [#], [*] and
    backquotes, cut after 150 characters and trimmed of the white space at
    its ends, followed by three dots.  The part before the dots has at
    most 150 characters, none of them [#], [*] or a backquote, and it is
    the content itself when the content is no longer than that and has no
    such character and no white space at its ends.  An excerpt that the
    body gives is stored as it is. *)
Theorem created_excerpt slugify env (st : gmap N Post) user b r st' :
  create_post slugify env st user b = (r, st') →
  res_status r = 201%N →
  ∃ c p,
    body_content b = Some c
    ∧ st' !! oid env = Some p
    ∧ (∀ e, body_excerpt b = Some e → e ≠ "" → excerpt p = Some e)
    ∧ (JS.falsy (body_excerpt b) = true →
       ∃ e, excerpt p = Some (e +:+ "...")
            ∧ e = JS.trim (substring 0 150 (JS.remove_chars is_markup c))
            ∧ String.length e ≤ 150
            ∧ all_chars (λ c, negb (is_markup c)) e = true
            ∧ (all_chars (λ c, negb (is_markup c)) c = true →
               String.length c ≤ 150 → JS.trim c = c → e = c)).
Proof.
  intros Hc Hr.
  destruct (create_post_derived _ _ _ _ _ _ _ Hc Hr)
    as (c & p0 & Hcont & _ & _ & _).
  destruct (create_post_created _ _ _ _ _ _ _ Hc Hr)
    as (_ & _ & _ & _ & _ & _ & ->).
  exists c. eexists. split; [done|]. split; [apply lookup_insert_eq|].
  rewrite pre_save_new. cbv zeta. split.
  - intros e He Hne. unfold sanitize. simpl. rewrite He.
    destruct e; [done|]. done.
  - unfold sanitize at 1. simpl. intros ->. simpl. rewrite Hcont. simpl.
    eexists. split; [done|]. split; [done|]. split; [|split].
    + etrans; [apply length_trim|apply length_substring_0].
    + apply all_chars_trim, all_chars_substring, all_chars_remove.
    + intros Hplain Hshort Htrim.
      by rewrite remove_chars_none, substring_0_all.
Qed.

Lemma ceil_div_mono a b d : a ≤ b → JS.ceil_div a d ≤ JS.ceil_div b d.
Proof. intros H. unfold JS.ceil_div. apply Nat.Div0.div_le_mono. lia. Qed.

Lemma ceil_div_positive a : 1 ≤ a → 1 ≤ JS.ceil_div a 200.
Proof.
  intros H. unfold JS.ceil_div. apply Nat.div_le_lower_bound; simpl; lia.
Qed.

(** X18.  The read time of a created post is at least 1, at least the
    number of words of its content over 200, rounded up, and at most what
    two more words would give. *)
Theorem created_read_time slugify env (st : gmap N Post) user b r st' :
  create_post slugify env st user b = (r, st') →
  res_status r = 201%N →
  ∃ c p,
    body_content b = Some c ∧ st' !! oid env = Some p
    ∧ 1 ≤ readTime p
    ∧ JS.ceil_div (word_count c) 200 ≤ readTime p
      ≤ JS.ceil_div (word_count c + 2) 200.
Proof.
  intros Hc Hr.
  destruct (create_post_derived _ _ _ _ _ _ _ Hc Hr)
    as (c & p & Hcont & Hp & Hrt & _).
  exists c, p. split; [done|]. split; [done|]. rewrite Hrt.
  pose proof (wordCount_word_count c) as Hw.
  assert (word_count c ≤ wordCount c ≤ word_count c + 2 ∧ 1 ≤ wordCount c)
    as ([Hlo Hhi] & Hpos).
  { split.
    - destruct (JS.starts_with JS.is_space c || String.eqb c ""),
        (ends_with_space c); lia.
    - pose proof (split_runs_nonempty JS.is_space c) as Hne.
      unfold wordCount. destruct (JS.split_runs JS.is_space c); [done|].
      simpl. lia. }
  split; [by apply ceil_div_positive|]. split; by apply ceil_div_mono.
Qed.

(** ** What follows a create *)

Lemma findOne_slug_only (st : gmap N Post) id p :
  st !! id = Some p →
  (∀ j q, st !! j = Some q → slug q = slug p → j = id) →
  findOne_slug st (slug p) = Some (id, p).
Proof.
  intros Hp Hone.
  destruct (findOne_slug_stored st id p Hp) as [[j q] Hf].
  destruct (findOne_slug_Some _ _ _ _ Hf) as [Hq Hs].
  assert (j = id) as -> by by eapply Hone.
  rewrite Hp in Hq. by injection Hq as <-.
Qed.

Lemma append_not_empty (a b : string) : b ≠ "" → a +:+ b ≠ "".
Proof. intros Hb. destruct a; [done|]. done. Qed.

(** X19.  A post that was created is read back by its author as it was
    answered, by its id and by its slug, and the read by slug counts no
    view. *)
Theorem created_post_read_back slugify env (st : gmap N Post) user b r st' :
  create_post slugify env st user b = (r, st') →
  res_status r = 201%N →
  ∃ p,
    res_json r = OnePost (Some "Post created successfully") (oid env) p
    ∧ get_post_by_id st' user (oid env)
      = mkResponse 200 (OnePost None (oid env) p)
    ∧ get_post_by_slug st' (Some user) (slug p)
      = (mkResponse 200 (OnePost None (oid env) p), st').
Proof.
  intros Hc Hr.
  destruct (create_post_stored_slug _ _ _ _ _ _ _ Hc Hr)
    as (t & p0 & _ & Hp0 & Hslug).
  destruct (create_post_created _ _ _ _ _ _ _ Hc Hr)
    as (_ & _ & _ & Hfree & Hnew & -> & ->).
  set (p := pre_save _ _) in *.
  rewrite lookup_insert_eq in Hp0. injection Hp0 as <-.
  assert (Hauth : author p = user_id user).
  { unfold p. rewrite pre_save_new. cbv zeta. by destruct (JS.falsy _). }
  exists p. split; [done|]. split.
  - unfold get_post_by_id, same_user. rewrite lookup_insert_eq, Hauth.
    by rewrite N.eqb_refl.
  - unfold get_post_by_slug.
    assert (Hne : slug p ≠ "").
    { rewrite Hslug. by apply append_not_empty. }
    apply String.eqb_neq in Hne. rewrite Hne.
    rewrite (findOne_slug_only _ (oid env) p).
    + assert (Hna : not_author (Some user) p = false).
      { apply not_author_false. by exists user. }
      by rewrite Hna, !andb_false_r.
    + apply lookup_insert_eq.
    + intros j q Hq Hs. destruct (decide (j = oid env)) as [|Hj]; [done|].
      rewrite lookup_insert_ne in Hq by done.
      by destruct (findOne_slug_None _ _ _ _ Hnew Hq).
Qed.

(** X20.  The author who deletes the post just created gets the store back
    as it was before the create. *)
Theorem create_then_delete slugify env (st : gmap N Post) user b r st' :
  create_post slugify env st user b = (r, st') →
  res_status r = 201%N →
  delete_post st' user (oid env)
  = (mkResponse 200 (Message "Post deleted successfully"), st).
Proof.
  intros Hc Hr.
  destruct (create_post_created _ _ _ _ _ _ _ Hc Hr)
    as (_ & _ & _ & Hfree & _ & _ & ->).
  unfold delete_post, same_user. rewrite lookup_insert_eq.
  rewrite pre_save_new. cbv zeta.
  assert (∀ p : Post, author p = user_id user →
            negb (author p =? user_id user)%N
            && negb (String.eqb (role user) "admin") = false) as Hsame.
  { intros p ->. by rewrite N.eqb_refl. }
  rewrite delete_insert_id by done.
  destruct (JS.falsy _); by rewrite Hsame.
Qed.

(** ** The answer of a toggle *)

(** X21.  The answer of a toggle tells the state it stored: [liked] says
    whether the caller is in the stored [likes], [likesCount] is their
    number, and the message names the same outcome. *)
Theorem toggle_like_answer env (st : gmap N Post) user id r st' :
  toggle_like env st user id = (r, st') →
  res_status r = 200%N →
  ∃ (p' : Post) (liked : bool),
    st' !! id = Some p'
    ∧ res_json r
      = LikeResult (if liked then "Post liked" else "Post unliked") liked
          (length (likes p'))
    ∧ (liked = true ↔ user_id user ∈ likes p').
Proof.
  intros Ht Hr.
  destruct (toggle_like_done _ _ _ _ _ _ Ht Hr) as (p & Hp & Hmay & Hv & ->).
  rewrite (toggle_like_allowed _ _ _ _ _ Hp Hmay Hv) in Ht.
  injection Ht as <-.
  eexists _, (negb (bool_decide (user_id user ∈ likes p))).
  split; [apply lookup_insert_eq|]. simpl. split.
  - by destruct (bool_decide _).
  - unfold toggled_likes. case_bool_decide as Hin; simpl.
    + split; [done|]. intros H. by apply not_elem_of_filter_ne in H.
    + split; [|done]. intros _. apply elem_of_app. right. by left.
Qed.

(** ** The create form of the client *)

Lemma handleTagChange_NoDup tag (l : list string) :
  NoDup l → NoDup (handleTagChange tag l).
Proof.
  intros Hl. unfold handleTagChange. case_bool_decide as Hin.
  - by apply NoDup_filter.
  - apply NoDup_app. split; [done|]. split; [|apply NoDup_singleton].
    intros x Hx ->%list_elem_of_singleton. done.
Qed.

Lemma handleTagChange_elem tag (l : list string) x :
  x ∈ handleTagChange tag l → x ∈ l ∨ x = tag.
Proof.
  unfold handleTagChange. case_bool_decide as Hin.
  - intros [_ H]%list_elem_of_filter. by left.
  - intros [H| ->%list_elem_of_singleton]%elem_of_app; [by left|by right].
Qed.

(** The tags of the form are check boxes, each at most once. *)
Lemma form_tags_reached_boxes (l : list string) :
  form_tags_reached l → NoDup l ∧ ∀ x, x ∈ l → x ∈ tag_boxes.
Proof.
  induction 1 as [|tag l _ [Hnd Hsub] Htag].
  - split; [apply NoDup_nil_2|]. intros x Hx. by apply not_elem_of_nil in Hx.
  - split; [by apply handleTagChange_NoDup|].
    intros x [Hx| ->]%handleTagChange_elem; [by apply Hsub|done].
Qed.

(** X22.  A create form whose tags come from clicks on the two check boxes,
    whose privacy comes from the select and which [handleSubmit] posts,
    fails the validation of the server in two cases only: a title of more
    than 200 characters once trimmed, or an excerpt of more than 300. *)
Theorem create_form_validation (f : Form) :
  form_tags_reached (form_tags f) →
  form_privacy f = "public" ∨ form_privacy f = "private" →
  handleSubmit_posts f = true →
  validate_create (sanitize (form_body f)) = []
  ↔ String.length (JS.trim (form_title f)) ≤ 200
    ∧ String.length (form_excerpt f) ≤ 300.
Proof.
  intros [Hnd Hsub]%form_tags_reached_boxes Hpriv Hsubmit.
  unfold handleSubmit_posts in Hsubmit.
  apply andb_true_iff in Hsubmit as [[Ht Hc]%andb_true_iff Hn].
  apply negb_true_iff, String.eqb_neq in Ht, Hc.
  apply negb_true_iff, Nat.eqb_neq in Hn.
  rewrite validate_create_ok. unfold create_body_ok, form_body. simpl. split.
  - intros ((t & [= <-] & _ & Hlen) & _ & _ & _ & He). split; [done|].
    by apply He.
  - intros [Hlen He]. split_and!.
    + by exists (form_title f).
    + exists (form_content f). split; [done|]. intros Hempty.
      by rewrite Hempty in Hc.
    + exists (form_tags f). split; [done|]. split.
      * split; [lia|].
        apply (submseteq_length _ tag_boxes), NoDup_submseteq; done.
      * intros t Hin. apply Hsub in Hin. unfold tag_boxes in Hin.
        apply elem_of_cons in Hin as [->|Hin]; [by left|].
        apply list_elem_of_singleton in Hin as ->. by right.
    + by exists (form_privacy f).
    + by intros e [= <-].
Qed.

(** ** The pagination of a list *)

Lemma page_positive q : validate_list q = [] → 1 ≤ int_or (query_page q) 1.
Proof.
  intros Hq. destruct (validate_list_parts q Hq) as (_ & Hp & _).
  unfold int_or. destruct (query_page q) as [m|]; [|lia].
  specialize (Hp m eq_refl). destruct (Z.eqb_spec m 0); lia.
Qed.

Lemma limit_at_most q : validate_list q = [] → int_or (query_limit q) 10 ≤ 50.
Proof.
  intros Hq. destruct (validate_list_parts q Hq) as (_ & _ & Hl).
  unfold int_or. destruct (query_limit q) as [m|]; [|lia].
  destruct (Hl m eq_refl). destruct (Z.eqb_spec m 0); lia.
Qed.

Lemma ceil_div_above k total l :
  1 ≤ l → k < JS.ceil_div total l ↔ k * l < total.
Proof.
  intros Hl. unfold JS.ceil_div. split.
  - intros Hk.
    pose proof (Nat.Div0.mul_div_le (total + (l - 1)) l). nia.
  - intros Hk. apply (Nat.div_le_lower_bound _ _ (S k)); nia.
Qed.

(** X23.  The pagination of a list that is answered 200 fits its posts: the
    page is at least 1 and the limit between 1 and 50, the response holds
    the [limit] posts after the first [(page - 1) * limit] of the [total],
    or the fewer that are left, [hasNext] says that a later page exists and
    [hasPrev] that an earlier one does. *)
Theorem list_pagination_fits text_search env (st : gmap N Post) user q posts pgn :
  get_posts text_search env st user q = mkResponse 200 (Posts posts (Some pgn)) →
  1 ≤ page pgn ∧ 1 ≤ limit pgn ≤ 50
  ∧ length posts = limit pgn `min` (total pgn - (page pgn - 1) * limit pgn)
  ∧ (hasNext pgn = true ↔ page pgn < pages pgn)
  ∧ (hasPrev pgn = true ↔ 1 < page pgn).
Proof.
  unfold get_posts. destruct (validate_list q) eqn:Hq; [|done].
  destruct (find text_search (list_filter user q) st) as [found|]; [|done].
  intros [= <- <-]. simpl.
  pose proof (page_positive q Hq). pose proof (limit_positive q Hq).
  pose proof (limit_at_most q Hq).
  split; [done|]. split; [done|]. split; [|split].
  - unfold select_no_content.
    rewrite length_fmap, length_take, length_drop.
    by rewrite (Permutation_length (sort_createdAt_desc_perm _ found)).
  - rewrite Nat.ltb_lt. symmetry. by apply ceil_div_above.
  - by rewrite Nat.ltb_lt.
Qed.

(** ** An update that the schema refuses *)










(** ** The further properties on the sample data *)

Lemma reachable_one_post :
  reachable Sample.slugify Sample.text_search Sample.one_post.
Proof.
  exact (reachable_handle Sample.slugify Sample.text_search Sample.first _
           (CreatePost Sample.alice Sample.hello)
           (reachable_empty Sample.slugify Sample.text_search)).
Defined.

Lemma reachable_two_posts :
  reachable Sample.slugify Sample.text_search Sample.two_posts.
Proof.
  exact (reachable_handle Sample.slugify Sample.text_search Sample.second _
           (CreatePost Sample.alice
              (Sample.body "Private note" "Only for me" "personal" "private"))
           reachable_one_post).
Defined.

Lemma reachable_liked_by_bob :
  reachable Sample.slugify Sample.text_search Sample.liked_by_bob.
Proof.
  exact (reachable_handle Sample.slugify Sample.text_search Sample.third _
           (ToggleLike Sample.bob 1) reachable_one_post).
Defined.

Lemma stored_identity_fixed_witness :
  author Sample.retitled = author Sample.hello_post
  ∧ slug Sample.retitled = slug Sample.hello_post
  ∧ createdAt Sample.retitled = createdAt Sample.hello_post.
Proof.
  apply (stored_identity_fixed Sample.slugify Sample.text_search Sample.second
           Sample.one_post (UpdatePost Sample.alice 1 Sample.new_title) 1).
  - vm_compute. reflexivity.
  - vm_compute. reflexivity.
Defined.

Lemma edited_only_by_author_witness :
  ∃ user b,
    UpdatePost Sample.alice 1 Sample.new_title = UpdatePost user 1 b
    ∧ user_id user = author Sample.hello_post.
Proof.
  apply (edited_only_by_author Sample.slugify Sample.text_search Sample.second
           Sample.one_post (UpdatePost Sample.alice 1 Sample.new_title) 1
           Sample.hello_post Sample.retitled).
  - vm_compute. reflexivity.
  - vm_compute. reflexivity.
  - discriminate.
Defined.

Lemma likes_changed_by_own_toggle_witness :
  likes (set_likes [102%N] Sample.hello_post) = likes Sample.hello_post
  ∨ ∃ user,
      ToggleLike Sample.bob 1 = ToggleLike user 1
      ∧ ∀ v, v ≠ user_id user →
             v ∈ likes (set_likes [102%N] Sample.hello_post)
             ↔ v ∈ likes Sample.hello_post.
Proof.
  apply (likes_changed_by_own_toggle Sample.slugify Sample.text_search
           Sample.third Sample.one_post (ToggleLike Sample.bob 1) 1).
  - vm_compute. reflexivity.
  - vm_compute. reflexivity.
Defined.

Lemma views_only_grow_witness :
  views (set_views 1 Sample.hello_post) = views Sample.hello_post
  ∨ (views (set_views 1 Sample.hello_post) = (views Sample.hello_post + 1)%N
     ∧ ∃ user,
         GetPostBySlug (Some Sample.bob) "hello-world-1700000000000"
         = GetPostBySlug user (slug Sample.hello_post)
         ∧ privacy Sample.hello_post = "public"
         ∧ ¬ is_author user Sample.hello_post).
Proof.
  apply (views_only_grow Sample.slugify Sample.text_search Sample.second
           Sample.one_post
           (GetPostBySlug (Some Sample.bob) "hello-world-1700000000000") 1).
  - vm_compute. reflexivity.
  - vm_compute. reflexivity.
Defined.

Lemma removed_only_by_delete_witness :
  ∃ user,
    DeletePost Sample.alice 1 = DeletePost user 1
    ∧ (user_id user = author Sample.hello_post ∨ role user = "admin").
Proof.
  apply (removed_only_by_delete Sample.slugify Sample.text_search Sample.second
           Sample.one_post (DeletePost Sample.alice 1) 1 Sample.hello_post).
  - vm_compute. reflexivity.
  - vm_compute. reflexivity.
Defined.

Lemma featured_only_by_admin_witness :
  (∃ p, (∅ : gmap N Post) !! 1%N = Some p ∧ featured p = true)
  ∨ (∃ user,
       caller (CreatePost Sample.carol Sample.pinned_body) = Some user
       ∧ role user = "admin").
Proof.
  apply (featured_only_by_admin Sample.slugify Sample.text_search Sample.first
           ∅ (CreatePost Sample.carol Sample.pinned_body) 1 Sample.pinned_post).
  - vm_compute. reflexivity.
  - reflexivity.
Defined.

Lemma refused_request_writes_nothing_witness :
  (handle Sample.slugify Sample.text_search Sample.second Sample.one_post
     (DeletePost Sample.bob 1)).2
  = Sample.one_post.
Proof.
  apply (refused_request_writes_nothing Sample.slugify Sample.text_search
           Sample.second Sample.one_post (DeletePost Sample.bob 1)
           (handle Sample.slugify Sample.text_search Sample.second
              Sample.one_post (DeletePost Sample.bob 1)).1).
  - apply surjective_pairing.
  - vm_compute. discriminate.
  - vm_compute. discriminate.
Defined.

Lemma private_post_never_disclosed_witness :
  ∃ user,
    caller (GetPostById Sample.alice 2) = Some user
    ∧ user_id user = author Sample.private_note.
Proof.
  apply (private_post_never_disclosed Sample.slugify Sample.text_search
           Sample.third Sample.two_posts (GetPostById Sample.alice 2) 2
           Sample.private_note).
  - left. exists None. vm_compute. reflexivity.
  - reflexivity.
Defined.

Lemma slug_is_unique_witness :
  Sample.two_posts !! 1%N = Some Sample.hello_post
  ∧ Sample.two_posts !! 2%N = Some Sample.private_note
  ∧ slug Sample.hello_post ≠ slug Sample.private_note.
Proof.
  split; [vm_compute; reflexivity|]. split; [vm_compute; reflexivity|].
  apply (slug_is_unique Sample.slugify Sample.text_search Sample.two_posts 1 2
           Sample.hello_post Sample.private_note).
  - exact reachable_two_posts.
  - vm_compute. reflexivity.
  - vm_compute. reflexivity.
  - discriminate.
Defined.

Lemma stored_post_passes_schema_witness :
  title Sample.hello_post ≠ ""
  ∧ String.length (title Sample.hello_post) ≤ 200
  ∧ content Sample.hello_post ≠ ""
  ∧ (∀ e, excerpt Sample.hello_post = Some e → String.length e ≤ 300)
  ∧ slug Sample.hello_post ≠ ""
  ∧ (∀ t, t ∈ tags Sample.hello_post → t = "technical" ∨ t = "personal")
  ∧ 1 ≤ length (tags Sample.hello_post) ≤ 2
  ∧ (privacy Sample.hello_post = "public"
     ∨ privacy Sample.hello_post = "private")
  ∧ (status Sample.hello_post = "draft"
     ∨ status Sample.hello_post = "published").
Proof.
  apply (stored_post_passes_schema Sample.slugify Sample.text_search
           Sample.one_post 1 Sample.hello_post).
  - exact reachable_one_post.
  - vm_compute. reflexivity.
Defined.

Lemma likes_hold_a_user_once_witness :
  NoDup (likes (set_likes [102%N] Sample.hello_post)).
Proof.
  apply (likes_hold_a_user_once Sample.slugify Sample.text_search
           Sample.liked_by_bob 1 (set_likes [102%N] Sample.hello_post)).
  - exact reachable_liked_by_bob.
  - vm_compute. reflexivity.
Defined.

Lemma user_posts_listed_witness :
  ∃ a,
    ObjectId.cast Sample.alice_id = Some a
    ∧ (∀ id p',
         (id, p')
         ∈ response_posts
             (get_user_posts Sample.text_search Sample.first Sample.two_posts
                (Some Sample.alice) Sample.alice_id)
         ↔ ∃ p, Sample.two_posts !! id = Some p ∧ p' = set_content "" p
                ∧ author p = a ∧ status p = "published"
                ∧ (privacy p = "public"
                   ∨ ∃ u, Some Sample.alice = Some u
                          ∧ ObjectId.toString (user_id u) = Sample.alice_id))
    ∧ NoDup
        (response_posts
           (get_user_posts Sample.text_search Sample.first Sample.two_posts
              (Some Sample.alice) Sample.alice_id)).*1
    ∧ Sorted newer_first
        (response_posts
           (get_user_posts Sample.text_search Sample.first Sample.two_posts
              (Some Sample.alice) Sample.alice_id)).
Proof.
  apply (user_posts_listed Sample.text_search Sample.first Sample.two_posts
           (Some Sample.alice) Sample.alice_id _ None).
  vm_compute. reflexivity.
Defined.

Lemma list_pages_cover_witness :
  ∃ all,
    (∀ id p,
       (id, p) ∈ all
       ↔ Sample.two_public !! id = Some p
         ∧ listable Sample.text_search None Sample.one_per_page p)
    ∧ NoDup all.*1 ∧ Sorted newer_first all
    ∧ concat
        ((λ k,
            response_posts
              (get_posts Sample.text_search
                 (mkEnv 1700000002000 4 (λ i, N.of_nat k * i)%N)
                 Sample.two_public None (with_page Sample.one_per_page k)))
           <$> seq 1 (pages (mkPagination 1 1 2 2 true false)))
      = select_no_content all.
Proof.
  apply (list_pages_cover Sample.text_search Sample.first
           (λ k, mkEnv 1700000002000 4 (λ i, N.of_nat k * i)%N)
           Sample.two_public None Sample.one_per_page
           (response_posts
              (get_posts Sample.text_search Sample.first Sample.two_public
                 None Sample.one_per_page))
           (mkPagination 1 1 2 2 true false)).
  - vm_compute. reflexivity.
  - intros i j p p' Hp Hp' _ _. apply (untied_times Sample.two_public); [|done..].
    apply (bool_decide_unpack
             (NoDup ((λ kp : N * Post, createdAt kp.2)
                       <$> map_to_list Sample.two_public))).
    vm_compute. exact I.
Defined.

Lemma created_slug_is_url_safe_witness :
  ∃ p stem,
    Sample.one_post !! oid Sample.first = Some p
    ∧ slug p = stem +:+ "-" +:+ JS.string_of_N (now Sample.first)
    ∧ all_chars url_char (slug p) = true.
Proof.
  apply (created_slug_is_url_safe Sample.slugify Sample.first ∅ Sample.alice
           Sample.hello
           (create_post Sample.slugify Sample.first ∅ Sample.alice
              Sample.hello).1).
  - apply surjective_pairing.
  - vm_compute. reflexivity.
Defined.

Lemma created_excerpt_witness :
  ∃ c p,
    body_content Sample.hello = Some c
    ∧ Sample.one_post !! oid Sample.first = Some p
    ∧ (∀ e, body_excerpt Sample.hello = Some e → e ≠ "" → excerpt p = Some e)
    ∧ (JS.falsy (body_excerpt Sample.hello) = true →
       ∃ e, excerpt p = Some (e +:+ "...")
            ∧ e = JS.trim (substring 0 150 (JS.remove_chars is_markup c))
            ∧ String.length e ≤ 150
            ∧ all_chars (λ c, negb (is_markup c)) e = true
            ∧ (all_chars (λ c, negb (is_markup c)) c = true →
               String.length c ≤ 150 → JS.trim c = c → e = c)).
Proof.
  apply (created_excerpt Sample.slugify Sample.first ∅ Sample.alice
           Sample.hello
           (create_post Sample.slugify Sample.first ∅ Sample.alice
              Sample.hello).1).
  - apply surjective_pairing.
  - vm_compute. reflexivity.
Defined.

Lemma created_read_time_witness :
  ∃ c p,
    body_content Sample.hello = Some c
    ∧ Sample.one_post !! oid Sample.first = Some p
    ∧ 1 ≤ readTime p
    ∧ JS.ceil_div (word_count c) 200 ≤ readTime p
      ≤ JS.ceil_div (word_count c + 2) 200.
Proof.
  apply (created_read_time Sample.slugify Sample.first ∅ Sample.alice
           Sample.hello
           (create_post Sample.slugify Sample.first ∅ Sample.alice
              Sample.hello).1).
  - apply surjective_pairing.
  - vm_compute. reflexivity.
Defined.

Lemma created_post_read_back_witness :
  ∃ p,
    res_json
      (create_post Sample.slugify Sample.first ∅ Sample.alice Sample.hello).1
    = OnePost (Some "Post created successfully") (oid Sample.first) p
    ∧ get_post_by_id Sample.one_post Sample.alice (oid Sample.first)
      = mkResponse 200 (OnePost None (oid Sample.first) p)
    ∧ get_post_by_slug Sample.one_post (Some Sample.alice) (slug p)
      = (mkResponse 200 (OnePost None (oid Sample.first) p), Sample.one_post).
Proof.
  apply (created_post_read_back Sample.slugify Sample.first ∅ Sample.alice
           Sample.hello).
  - apply surjective_pairing.
  - vm_compute. reflexivity.
Defined.

Lemma create_then_delete_witness :
  delete_post Sample.one_post Sample.alice (oid Sample.first)
  = (mkResponse 200 (Message "Post deleted successfully"), ∅).
Proof.
  apply (create_then_delete Sample.slugify Sample.first ∅ Sample.alice
           Sample.hello
           (create_post Sample.slugify Sample.first ∅ Sample.alice
              Sample.hello).1).
  - apply surjective_pairing.
  - vm_compute. reflexivity.
Defined.

Lemma toggle_like_answer_witness :
  ∃ (p' : Post) (liked : bool),
    Sample.liked_by_bob !! 1%N = Some p'
    ∧ res_json (toggle_like Sample.third Sample.one_post Sample.bob 1).1
      = LikeResult (if liked then "Post liked" else "Post unliked") liked
          (length (likes p'))
    ∧ (liked = true ↔ user_id Sample.bob ∈ likes p').
Proof.
  apply (toggle_like_answer Sample.third Sample.one_post Sample.bob 1).
  - apply surjective_pairing.
  - vm_compute. reflexivity.
Defined.

Lemma create_form_validation_witness :
  validate_create (sanitize (form_body Sample.hello_form)) = []
  ↔ String.length (JS.trim (form_title Sample.hello_form)) ≤ 200
    ∧ String.length (form_excerpt Sample.hello_form) ≤ 300.
Proof.
  apply (create_form_validation Sample.hello_form).
  - exact (form_tags_click "technical" [] form_tags_start
             (list_elem_of_here "technical" ["personal"])).
  - left. reflexivity.
  - vm_compute. reflexivity.
Defined.

Lemma list_pagination_fits_witness :
  1 ≤ page (mkPagination 1 1 2 2 true false)
  ∧ 1 ≤ limit (mkPagination 1 1 2 2 true false) ≤ 50
  ∧ length
      (response_posts
         (get_posts Sample.text_search Sample.first Sample.two_public None
            Sample.one_per_page))
    = limit (mkPagination 1 1 2 2 true false)
      `min` (total (mkPagination 1 1 2 2 true false)
             - (page (mkPagination 1 1 2 2 true false) - 1)
               * limit (mkPagination 1 1 2 2 true false))
  ∧ (hasNext (mkPagination 1 1 2 2 true false) = true
     ↔ page (mkPagination 1 1 2 2 true false)
       < pages (mkPagination 1 1 2 2 true false))
  ∧ (hasPrev (mkPagination 1 1 2 2 true false) = true
     ↔ 1 < page (mkPagination 1 1 2 2 true false)).
Proof.
  apply (list_pagination_fits Sample.text_search Sample.first
           Sample.two_public None Sample.one_per_page).
  vm_compute. reflexivity.
Defined.

